(** * PbtA system for Foundry: keyed-collection field, playbook registry,
      roll formula and chat-card shift

    A shallow embedding of
    - [MappingField], the schema field that holds a mapping of keys to values
      of one contained [DataField];
    - the lifecycle hooks of [ItemPbta] that mirror playbook items into the
      process-wide list [CONFIG.PBTA.playbooks];
    - [ItemPbta.getRollFormula];
    - the text patching that [ItemPbta._onChatCardAction] does on a shift.

    JavaScript data is modelled as follows.  An object is a finite map from
    property names to values, its own enumerable properties, under a
    prototype: [Object.prototype] for an object as a literal or JSON gives
    it, or the object or [null] that an assignment to [__proto__] has put in
    its place.  A read [v[k]] goes up the prototype chain, where it finds the
    members of [Object.prototype] and the [__proto__] accessor; an
    assignment [v[k] = x] updates or defines an own property, unless the
    name is [__proto__] and reaches the accessor, whose setter replaces the
    prototype and defines nothing.  The built-in objects that a read reaches
    are values by name only.  [Object.keys] enumerates in the order of the
    map, not of insertion.  Numbers are the integers and [NaN].  Arrays and
    instances of host classes are not values of the universe below; the
    playbook registry, which is an array, has a type of its own.  Strings
    are sequences of 8-bit characters.  Methods of the host that the code
    calls are parameters: records of pure functions. *)

From Stdlib Require Import ZArith String Ascii DecimalString.
From stdpp Require Import gmap strings list fin_maps option.

Set Warnings "-register-all".
Local Open Scope Z_scope.
Local Open Scope string_scope.

(** ** JavaScript values *)

Module JS.

(** The built-in objects that a read on data can reach: the prototype
    objects [Object.prototype], [String.prototype], [Number.prototype],
    [Boolean.prototype] and [Function.prototype], named by their
    constructor, and the function that a name of [Object_prototype_names]
    denotes on one of them, own or inherited. *)
Inductive builtin : Type :=
| Prototype (owner : string)
| Member (owner name : string).

Inductive value : Type :=
| VUndefined
| VNull
| VBool (b : bool)
| VNumber (n : Z)
| VNaN
| VString (s : string)
(** an object whose prototype is [Object.prototype] *)
| VObject (o : gmap string value)
(** an object whose prototype an assignment to [__proto__] has replaced *)
| VObjectOver (proto : value) (o : gmap string value)
| VBuiltin (b : builtin).

(** [ModelValidationError errors]: [errors] is the object of the failures
    by key, as its own properties [own] and, when an assignment to
    [__proto__] has made a failure its prototype, that failure. *)
Inductive jserror : Type :=
| Error (msg : string)
| TypeError (msg : string)
| ModelValidationError (own : gmap string jserror) (proto : option jserror).

(** Outcome of a call that may throw. *)
Inductive result (A : Type) : Type :=
| Ok (a : A)
| Throw (e : jserror).
Arguments Ok {A} a.
Arguments Throw {A} e.

#[export] Instance result_ret : MRet result := fun A a => Ok a.

#[export] Instance result_bind : MBind result := fun A B k r =>
  match r with
  | Ok a => k a
  | Throw e => Throw e
  end.

(** [!v] is [negb (truthy v)]. *)
Definition truthy (v : value) : bool :=
  match v with
  | VUndefined | VNull | VNaN => false
  | VBool b => b
  | VNumber n => negb (Z.eqb n 0)
  | VString s => negb (String.eqb s "")
  | VObject _ | VObjectOver _ _ | VBuiltin _ => true
  end.

Definition nullish (v : value) : bool :=
  match v with
  | VUndefined | VNull => true
  | _ => false
  end.

(** [a ?? b] *)
Definition coalesce (a b : value) : value :=
  if nullish a then b else a.

(** The own properties of an object; a primitive has none to enumerate. *)
Definition props (v : value) : gmap string value :=
  match v with
  | VObject o | VObjectOver _ o => o
  | _ => ∅
  end.

(** Decimal spelling of a number, as in a template literal or a property
    key. *)
Definition show_nat (n : nat) : string :=
  NilEmpty.string_of_uint (Nat.to_uint n).

Definition show_Z (z : Z) : string :=
  NilEmpty.string_of_int (Z.to_int z).

Definition char_at (s : string) (i : nat) : value :=
  match String.get i s with
  | Some c => VString (String c EmptyString)
  | None => VUndefined
  end.

(** [Object.entries(v)]: the own enumerable properties.  On [null] and
    [undefined] JavaScript throws instead; the callers test for them
    first. *)
Definition Object_entries (v : value) : list (string * value) :=
  match v with
  | VObject o | VObjectOver _ o => map_to_list o
  | VString s => (fun i => (show_nat i, char_at s i)) <$> seq 0 (String.length s)
  | _ => []
  end.

Definition Object_keys (v : value) : list string :=
  (Object_entries v).*1.

(** The property names of [Object.prototype]: eleven functions and the
    accessor [__proto__]. *)
Definition Object_prototype_names : list string :=
  ["constructor"; "__defineGetter__"; "__defineSetter__"; "hasOwnProperty";
   "__lookupGetter__"; "__lookupSetter__"; "isPrototypeOf"; "propertyIsEnumerable";
   "toString"; "valueOf"; "__proto__"; "toLocaleString"].

(** What a property name finds on an object and up its prototype chain: a
    data property, the accessor [__proto__] of [Object.prototype], or
    nothing. *)
Inductive found : Type :=
| Data (x : value)
| Accessor
| Absent.

(** The end of a chain that reaches [Object.prototype] from the prototype of [owner]:
    every object and every primitive inherits these twelve names.  What
    [String.prototype], [Number.prototype], [Boolean.prototype] and
    [Function.prototype] add to them depends on the host, which extends
    them, and is left out. *)
Definition Object_prototype_lookup (owner k : string) : found :=
  if String.eqb k "__proto__" then Accessor
  else if bool_decide (k ∈ Object_prototype_names) then Data (VBuiltin (Member owner k))
  else Absent.

(** What [k] finds on [v] and up its prototype chain. *)
Fixpoint find_prop (v : value) (k : string) : found :=
  match v with
  | VObject o =>
      match o !! k with
      | Some x => Data x
      | None => Object_prototype_lookup "Object" k
      end
  | VObjectOver proto o =>
      match o !! k with
      | Some x => Data x
      | None => find_prop proto k
      end
  | VString s =>
      if String.eqb k "length" then Data (VNumber (Z.of_nat (String.length s)))
      else
        match List.find (fun kv => String.eqb (fst kv) k) (Object_entries v) with
        | Some kv => Data (snd kv)
        | None => Object_prototype_lookup "String" k
        end
  | VNumber _ | VNaN => Object_prototype_lookup "Number" k
  | VBool _ => Object_prototype_lookup "Boolean" k
  | VBuiltin (Prototype owner) => Object_prototype_lookup owner k
  | VBuiltin (Member _ _) => Object_prototype_lookup "Function" k
  | VUndefined | VNull => Absent
  end.

(** The prototype that the getter of [__proto__] answers for a receiver. *)
Definition prototype_of (v : value) : value :=
  match v with
  | VObject _ => VBuiltin (Prototype "Object")
  | VObjectOver proto _ => proto
  | VString _ => VBuiltin (Prototype "String")
  | VNumber _ | VNaN => VBuiltin (Prototype "Number")
  | VBool _ => VBuiltin (Prototype "Boolean")
  | VBuiltin (Prototype owner) =>
      if String.eqb owner "Object" then VNull else VBuiltin (Prototype "Object")
  | VBuiltin (Member _ _) => VBuiltin (Prototype "Function")
  | VUndefined | VNull => VUndefined
  end.

(** [v[k]].  On [null] and [undefined] JavaScript throws instead; the
    callers test for them first. *)
Definition get_prop (v : value) (k : string) : value :=
  match find_prop v k with
  | Data x => x
  | Accessor => prototype_of v
  | Absent => VUndefined
  end.

(** The object with own properties [o] under the prototype [proto]. *)
Definition with_prototype (proto : value) (o : gmap string value) : value :=
  match proto with
  | VBuiltin (Prototype owner) =>
      if String.eqb owner "Object" then VObject o else VObjectOver proto o
  | _ => VObjectOver proto o
  end.

(** The values that the setter of [__proto__] takes for a prototype. *)
Definition object_or_null (x : value) : bool :=
  match x with
  | VNull | VObject _ | VObjectOver _ _ | VBuiltin _ => true
  | _ => false
  end.

(** [target[k] = x] on the object with own properties [o] under [proto]:
    an own property is updated; a name that reaches the accessor
    [__proto__] calls its setter, which replaces the prototype when [x] is
    an object or [null] and does nothing otherwise; any other name is
    defined as an own property (the properties that prototypes hold are
    writable data). *)
Definition write (proto : value) (o : gmap string value) (k : string) (x : value) : value :=
  match o !! k with
  | Some _ => with_prototype proto (<[k := x]> o)
  | None =>
      match find_prop proto k with
      | Accessor => if object_or_null x then with_prototype x o else with_prototype proto o
      | Data _ | Absent => with_prototype proto (<[k := x]> o)
      end
  end.

(** [target[k] = x] on an object; a built-in is a value by name, which an
    assignment leaves the same. *)
Definition put (target : value) (k : string) (x : value) : value :=
  match target with
  | VObject o => write (VBuiltin (Prototype "Object")) o k x
  | VObjectOver proto o => write proto o k x
  | _ => target
  end.

(** [target[k] = x] in strict code (a class body is strict): on [null] and
    on [undefined] the assignment throws; on a primitive it throws as well,
    unless the name reaches the setter of [__proto__], which does nothing
    for a receiver that is not an object. *)
Definition set_prop (target : value) (k : string) (x : value) : result value :=
  match target with
  | VUndefined | VNull => Throw (TypeError "Cannot set properties of undefined or null")
  | VObject _ | VObjectOver _ _ | VBuiltin _ => Ok (put target k x)
  | _ =>
      match find_prop target k with
      | Accessor => Ok target
      | _ => Throw (TypeError "Cannot create property on a primitive")
      end
  end.

(** Modelled from the spec: the host utility [foundry.utils.getType], which
    is not part of this repository.  Validation requires the raw value to be
    a plain keyed structure, which the utility names "Object". *)
Definition getType (v : value) : string :=
  match v with
  | VUndefined => "undefined"
  | VNull => "null"
  | VBool _ => "boolean"
  | VNumber _ | VNaN => "number"
  | VString _ => "string"
  | VObject _ | VObjectOver _ _ | VBuiltin (Prototype _) => "Object"
  | VBuiltin (Member _ _) => "function"
  end.

(** Modelled from the spec: the host utility [foundry.utils.isEmpty], which
    is not part of this repository.  [undefined], [null] and an object
    without keys are empty; a primitive and a function are not. *)
Definition isEmpty (v : value) : bool :=
  match v with
  | VUndefined | VNull => true
  | VObject o | VObjectOver _ o => Nat.eqb (length (map_to_list o)) 0
  | VBuiltin (Prototype _) => true
  | _ => false
  end.

End JS.

Import JS.

(** ** Strings *)

Module Str.

(** White space of [String.prototype.trim] and of the class [\s], among
    8-bit characters: TAB, LF, VT, FF, CR, SP and NBSP. *)
Definition is_white_space (c : ascii) : bool :=
  let n := nat_of_ascii c in
  (Nat.eqb n 9 || Nat.eqb n 10 || Nat.eqb n 11 || Nat.eqb n 12 || Nat.eqb n 13
   || Nat.eqb n 32 || Nat.eqb n 160)%bool.

(** The class [\d]. *)
Definition is_digit (c : ascii) : bool :=
  let n := nat_of_ascii c in
  (Nat.leb 48 n && Nat.leb n 57)%bool.

Definition digit_value (c : ascii) : nat := nat_of_ascii c - 48.

(** Line terminators, which the class [.] leaves out. *)
Definition is_line_terminator (c : ascii) : bool :=
  let n := nat_of_ascii c in
  (Nat.eqb n 10 || Nat.eqb n 13)%bool.

Fixpoint trimStart (s : string) : string :=
  match s with
  | String c s' => if is_white_space c then trimStart s' else s
  | EmptyString => EmptyString
  end.

Fixpoint trimEnd (s : string) : string :=
  match s with
  | EmptyString => EmptyString
  | String c s' =>
      match trimEnd s' with
      | EmptyString => if is_white_space c then EmptyString else String c EmptyString
      | r => String c r
      end
  end.

Definition trim (s : string) : string := trimEnd (trimStart s).

(** [s] without its prefix [p], when it starts with it. *)
Fixpoint strip_prefix (p s : string) : option string :=
  match p, s with
  | EmptyString, _ => Some s
  | String a p', String b s' => if Ascii.eqb a b then strip_prefix p' s' else None
  | String _ _, EmptyString => None
  end.

(** [s] cut around the first occurrence of [pat]. *)
Fixpoint split_first (pat s : string) : option (string * string) :=
  match strip_prefix pat s with
  | Some rest => Some (EmptyString, rest)
  | None =>
      match s with
      | EmptyString => None
      | String c s' =>
          match split_first pat s' with
          | Some (before, rest) => Some (String c before, rest)
          | None => None
          end
      end
  end.

(** [s] cut around the last occurrence of [pat]. *)
Fixpoint split_last (pat s : string) : option (string * string) :=
  match s with
  | EmptyString => strip_prefix pat EmptyString ≫= (fun rest => Some (EmptyString, rest))
  | String c s' =>
      match split_last pat s' with
      | Some (before, rest) => Some (String c before, rest)
      | None => strip_prefix pat s ≫= (fun rest => Some (EmptyString, rest))
      end
  end.

(** The longest prefix of [s] whose characters satisfy [p], and the rest. *)
Fixpoint span (p : ascii → bool) (s : string) : string * string :=
  match s with
  | EmptyString => (EmptyString, EmptyString)
  | String c s' =>
      if p c then let '(a, b) := span p s' in (String c a, b)
      else (EmptyString, s)
  end.

(** Every character of [s] satisfies [p]. *)
Fixpoint string_forall (p : ascii → bool) (s : string) : bool :=
  match s with
  | EmptyString => true
  | String c s' => (p c && string_forall p s')%bool
  end.

(** The replacement text of [String.prototype.replace] with its dollar
    patterns expanded: [$$], [$&], [$`], [$'], and [$n], [$nn] for the
    capture groups of the pattern. *)
Fixpoint expand (captures : list string) (matched before after repl : string) : string :=
  match repl with
  | EmptyString => EmptyString
  | String "$" (String c rest as tail) =>
      if Ascii.eqb c "$" then String "$" (expand captures matched before after rest)
      else if Ascii.eqb c "&" then matched +:+ expand captures matched before after rest
      else if Ascii.eqb c "`" then before +:+ expand captures matched before after rest
      else if Ascii.eqb c "'" then after +:+ expand captures matched before after rest
      else if is_digit c then
        let one := digit_value c in
        let single :=
          if (Nat.leb 1 one && Nat.leb one (length captures))%bool
          then default EmptyString (captures !! (one - 1)%nat)
                 +:+ expand captures matched before after rest
          else String "$" (expand captures matched before after tail) in
        match rest with
        | String d rest' =>
            let two := (10 * one + digit_value d)%nat in
            if (is_digit d && Nat.leb 1 two && Nat.leb two (length captures))%bool
            then default EmptyString (captures !! (two - 1)%nat)
                   +:+ expand captures matched before after rest'
            else single
        | EmptyString => single
        end
      else String "$" (expand captures matched before after tail)
  | String c rest => String c (expand captures matched before after rest)
  end.

(** [s.replace(pat, repl)] for a string pattern: the first occurrence. *)
Definition replace_string (s pat repl : string) : string :=
  match split_first pat s with
  | Some (before, after) => before +:+ expand [] pat before after repl +:+ after
  | None => s
  end.

End Str.

(** ** The contained field

    The part of the host's [DataField] interface that [MappingField] calls on
    its contained element.  The host methods are taken as pure functions of
    their arguments. *)

Record DataField : Type := {
  (** [clean(value, options)] *)
  df_clean : value → value → value;
  (** [getInitialValue(data)] *)
  df_getInitialValue : value → value;
  (** [validate(value, options)]: a failure, or [undefined] *)
  df_validate : value → value → option jserror;
  (** [initialize(value, model, options)] *)
  df_initialize : value → value → value → value
}.

(** ** MappingField *)

Module MappingField.

(** [options.initialKeys] is an array of keys or an object whose keys are
    used. *)
Inductive InitialKeys : Type :=
| KeysArray (keys : list string)
| KeysObject (o : gmap string value).

(** [options.initialValue(key, initial, object)] *)
Definition InitialValueBuilder : Type := string → value → value → value.

(** The options after the host has merged them over [_defaults]; the host
    copies each one onto the field.  [super_getInitialValue] stands for the
    inherited [ObjectField.getInitialValue], fixed by the base options. *)
Record options : Type := {
  opt_initialKeys : option InitialKeys;
  opt_initialValue : option InitialValueBuilder;
  opt_initialKeysOnly : bool;
  opt_super_getInitialValue : value → value
}.

Definition _defaults (super_getInitialValue : value → value) : options :=
  {| opt_initialKeys := None;
     opt_initialValue := None;
     opt_initialKeysOnly := false;
     opt_super_getInitialValue := super_getInitialValue |}.

(** What a constructor call has established on [this] so far. *)
Record under_construction : Type := {
  uc_options : option options;
  uc_model : option DataField
}.

Definition blank : under_construction :=
  {| uc_options := None; uc_model := None |}.

(** The first constructor argument: an instance of the host's [DataField],
    or anything else. *)
Inductive ctor_arg : Type :=
| IsDataField (m : DataField)
| NotDataField (v : value).

Definition constructor (model : ctor_arg) (opts : options) (this : under_construction)
  : under_construction * result unit :=
  match model with
  | NotDataField _ =>
      (this, Throw (Error "MappingField must have a DataField as its contained element"))
  | IsDataField m =>
      let this := {| uc_options := Some opts; uc_model := uc_model this |} in
      let this := {| uc_options := uc_options this; uc_model := Some m |} in
      (this, Ok ())
  end.

(** A constructed field. *)
Record t : Type := {
  model : DataField;
  initialKeys : option InitialKeys;
  initialValue : option InitialValueBuilder;
  initialKeysOnly : bool;
  super_getInitialValue : value → value
}.

(** [new MappingField(model, options)] *)
Definition new (arg : ctor_arg) (opts : options) : result t :=
  match constructor arg opts blank with
  | ({| uc_options := Some o; uc_model := Some m |}, Ok _) =>
      Ok {| model := m;
            initialKeys := opt_initialKeys o;
            initialValue := opt_initialValue o;
            initialKeysOnly := opt_initialKeysOnly o;
            super_getInitialValue := opt_super_getInitialValue o |}
  | (_, Throw e) => Throw e
  | (_, Ok _) => Throw (TypeError "the field is not fully constructed")
  end.

(** The object [errors] of [_validateValues]: the failures by key that are
    its own properties, and the failure that has become its prototype. *)
Record ErrorsByKey : Type := {
  errors_own : gmap string jserror;
  errors_proto : option jserror
}.

(** [errors[k] = error] on the object that starts as [{}]: a failure is an
    object, so that under the name [__proto__], which is never an own
    property of [errors], it becomes the prototype and no own property is
    defined; a failure holds writable data, so that any other name is
    defined as an own property whatever the prototype. *)
Definition set_error (errors : ErrorsByKey) (k : string) (error : jserror) : ErrorsByKey :=
  if String.eqb k "__proto__"
  then {| errors_own := errors_own errors; errors_proto := Some error |}
  else {| errors_own := <[k := error]> (errors_own errors); errors_proto := errors_proto errors |}.

(** Modelled from the spec: [foundry.utils.isEmpty] on the object of the
    failures.  Without a failure it is the empty object, which is empty;
    with own keys it is not; with a failure for its prototype and no own
    key it is an instance of the host's error class, which the utility does
    not call empty: validation fails as soon as an entry has failed. *)
Definition errors_isEmpty (errors : ErrorsByKey) : bool :=
  (Nat.eqb (length (map_to_list (errors_own errors))) 0
   && negb (bool_decide (is_Some (errors_proto errors))))%bool.

Section Methods.

Context (this : t).

Definition _cleanType (val options : value) : result value :=
  match val with
  | VUndefined | VNull =>
      Throw (TypeError "Cannot convert undefined or null to object")
  | _ =>
      foldl (fun acc kv => val ← acc; set_prop val kv.1 (df_clean (model this) kv.2 options))
            (Ok val) (Object_entries val)
  end.

Definition _getInitialValueForKey (key : string) (object : value) : value :=
  let initial := df_getInitialValue (model this) VUndefined in
  coalesce
    (match initialValue this with
     | Some build => build key initial object
     | None => VUndefined
     end)
    initial.

(** The loop [for ( const key of keys ) initial[key] = ...]. *)
Fixpoint seed (initial : value) (keys : list string) : result value :=
  match keys with
  | [] => Ok initial
  | key :: keys =>
      initial ← set_prop initial key (_getInitialValueForKey key VUndefined);
      seed initial keys
  end.

Definition getInitialValue (data : value) : result value :=
  let keys := initialKeys this in
  let initial := super_getInitialValue this data in
  match keys with
  | None => Ok initial
  | Some keys =>
      if negb (isEmpty initial) then Ok initial
      else
        let keys :=
          match keys with
          | KeysArray keys => keys
          | KeysObject o => Object_keys (VObject o)
          end in
        seed initial keys
  end.

Definition _validateValues (val options : value) : ErrorsByKey :=
  foldl (fun errors kv =>
           match df_validate (model this) kv.2 options with
           | Some error => set_error errors kv.1 error
           | None => errors
           end)
        {| errors_own := ∅; errors_proto := None |} (Object_entries val).

Definition _validateType (val options : value) : result unit :=
  if negb (String.eqb (getType val) "Object") then Throw (Error "must be an Object")
  else
    let errors := _validateValues val options in
    if negb (errors_isEmpty errors)
    then Throw (ModelValidationError (errors_own errors) (errors_proto errors))
    else Ok ().

Definition initialize (val model options : value) : value :=
  if negb (truthy val) then val
  else
    let obj := VObject ∅ in
    let initialKeys :=
      match initialKeys this with
      | Some (KeysArray keys) => keys
      | Some (KeysObject o) => Object_keys (VObject o)
      | None => Object_keys (VObject ∅)
      end in
    let keys := if initialKeysOnly this then initialKeys else Object_keys val in
    foldl (fun obj key =>
             let data := coalesce (get_prop val key) (_getInitialValueForKey key val) in
             put obj key (df_initialize (MappingField.model this) data model options))
          obj keys.

End Methods.

End MappingField.

(** ** ItemPbta *)

Module ItemPbta.

Import Str.

(** The owning actor, as far as the item calls it: [getRollFormula], a
    method of the actor document, answers a formula or nothing. *)
Record Actor : Type := {
  actor_getRollFormula : string → option string
}.

Record System : Type := {
  slug : option string;
  actorType : option string;
  rollType : option string;
  rollFormula : option string
}.

Record Item : Type := {
  type : string;
  name : string;
  uuid : string;
  system : System;
  actor : option Actor
}.

(** What the item reads from the host: [Roll.validate], [Roll.safeEval]
    (the number an expression text evaluates to, or nothing when the host
    throws) and [game.pbta.sheetConfig.rollFormula]. *)
Record Host : Type := {
  Roll_validate : string → bool;
  Roll_safeEval : string → option Z;
  sheetConfig_rollFormula : option string
}.

(** *** Roll formula *)

Definition getRollFormula (host : Host) (this : Item) (defaultFormula : string) : string :=
  let override :=
    if bool_decide (rollType (system this) = Some "formula") then
      match rollFormula (system this) with
      | Some rollFormula =>
          if (negb (String.eqb rollFormula "") && Roll_validate host rollFormula)%bool
          then Some (trim rollFormula)
          else None
      | None => None
      end
    else None in
  match override with
  | Some formula => formula
  | None =>
      match actor this ≫= (fun a => actor_getRollFormula a defaultFormula) with
      | Some formula => formula
      | None =>
          match sheetConfig_rollFormula host with
          | Some formula => formula
          | None => defaultFormula
          end
      end
  end.

(** *** Playbook registry *)

(** A dense JavaScript array: its elements, and the own properties whose
    names are not array indices. *)
Record jsarray (A : Type) : Type := {
  elems : list A;
  named : gmap string A
}.
Arguments elems {A} _.
Arguments named {A} _.

Definition push {A} (x : A) (a : jsarray A) : jsarray A :=
  {| elems := elems a ++ [x]; named := named a |}.

Fixpoint findIndex_from {A} (p : A → bool) (l : list A) (i : Z) : Z :=
  match l with
  | [] => -1
  | x :: l => if p x then i else findIndex_from p l (i + 1)
  end.

Definition findIndex {A} (p : A → bool) (a : jsarray A) : Z :=
  findIndex_from p (elems a) 0.

(** [a[i] = x].  A negative number is not an array index: the assignment
    defines the property named by its decimal spelling and leaves the
    elements and the length alone.  An index below the length replaces the
    element.  (At or past the length JavaScript grows the array; [findIndex]
    answers -1 or an index below the length, so the hooks never get there,
    and the list is left as it is.) *)
Definition assign {A} (a : jsarray A) (i : Z) (x : A) : jsarray A :=
  if (i <? 0)%Z then {| elems := elems a; named := <[show_Z i := x]> (named a) |}
  else {| elems := <[Z.to_nat i := x]> (elems a); named := named a |}.

(** [a.filter(p)] builds a new array from the elements. *)
Definition filter_array {A} (p : A → bool) (a : jsarray A) : jsarray A :=
  {| elems := List.filter p (elems a); named := ∅ |}.

Record PlaybookEntry : Type := {
  pb_name : string;
  pb_slug : option string;
  pb_uuid : string;
  pb_actorType : option string
}.

(** [CONFIG.PBTA.playbooks] *)
Definition registry : Type := jsarray PlaybookEntry.

Definition entry_of (this : Item) : PlaybookEntry :=
  {| pb_name := name this;
     pb_slug := slug (system this);
     pb_uuid := uuid this;
     pb_actorType := actorType (system this) |}.

(** The hooks as transformers of the registry; the inherited hooks they end
    with do not touch it. *)
Definition _onCreate (this : Item) (playbooks : registry) : registry :=
  if String.eqb (type this) "playbook" then push (entry_of this) playbooks
  else playbooks.

Definition _onUpdate (this : Item) (playbooks : registry) : registry :=
  if String.eqb (type this) "playbook" then
    let index := findIndex (fun p => String.eqb (pb_uuid p) (uuid this)) playbooks in
    assign playbooks index (entry_of this)
  else playbooks.

Definition _onDelete (this : Item) (playbooks : registry) : registry :=
  if String.eqb (type this) "playbook" then
    filter_array (fun p => negb (String.eqb (pb_uuid p) (uuid this))) playbooks
  else playbooks.

(** *** Chat card: the shift action *)

Definition quote : string := String (ascii_of_nat 34) EmptyString.

Definition dice_formula_open : string :=
  "<div class=" +:+ quote +:+ "dice-formula" +:+ quote +:+ ">".
Definition div_close : string := "</div>".
Definition dice_total_open : string :=
  "<h4 class=" +:+ quote +:+ "dice-total" +:+ quote +:+ ">".
Definition h4_close : string := "</h4>".

(** A match, starting at the head of [s], of a pattern made of the text
    [opening], a captured greedy run of any characters, and the text
    [closing] ([diceFormulaReg] and [diceTotalReg] are such): the run stays
    on the line and gives back up to the last [closing] on it.  Answers the
    capture and what follows the match. *)
Definition block_here (opening closing s : string) : option (string * string) :=
  match strip_prefix opening s with
  | None => None
  | Some rest =>
      let '(line, below) := span (fun c => negb (is_line_terminator c)) rest in
      match split_last closing line with
      | Some (capture, after) => Some (capture, after +:+ below)
      | None => None
      end
  end.

(** The leftmost such match in [s]: what precedes it, the capture, what
    follows it. *)
Fixpoint match_block (opening closing s : string) : option (string * string * string) :=
  match block_here opening closing s with
  | Some (capture, after) => Some (EmptyString, capture, after)
  | None =>
      match s with
      | EmptyString => None
      | String c s' =>
          match match_block opening closing s' with
          | Some (before, capture, after) => Some (String c before, capture, after)
          | None => None
          end
      end
  end.

(** [s.replace(re, repl)] for such a pattern [re]. *)
Definition replace_block (opening closing s repl : string) : string :=
  match match_block opening closing s with
  | Some (before, capture, after) =>
      before +:+ expand [capture] (opening +:+ capture +:+ closing) before after repl +:+ after
  | None => s
  end.

Definition is_sign (c : ascii) : bool :=
  (Ascii.eqb c "+" || Ascii.eqb c "-")%bool.

(** A match of [plusMinusReg] starting at the head of [s]: a sign, white
    space, one digit.  Answers the matched text, which is also the first
    capture, and what follows it. *)
Definition plusMinus_here (s : string) : option (string * string) :=
  match s with
  | String c s' =>
      if is_sign c then
        let '(ws, rest) := span is_white_space s' in
        match rest with
        | String d rest' =>
            if is_digit d then Some (String c (ws +:+ String d EmptyString), rest') else None
        | EmptyString => None
        end
      else None
  | EmptyString => None
  end.

(** The leftmost match of [plusMinusReg]: what precedes it, the matched
    text, what follows it. *)
Fixpoint match_plusMinus (s : string) : option (string * string * string) :=
  match plusMinus_here s with
  | Some (matched, after) => Some (EmptyString, matched, after)
  | None =>
      match s with
      | EmptyString => None
      | String c s' =>
          match match_plusMinus s' with
          | Some (before, matched, after) => Some (String c before, matched, after)
          | None => None
          end
      end
  end.

(** [s.replace(plusMinusReg, repl)] *)
Definition replace_plusMinus (s repl : string) : string :=
  match match_plusMinus s with
  | Some (before, matched, after) =>
      before +:+ expand [matched] matched before after repl +:+ after
  | None => s
  end.

(** The text written for a new value:
    [newValue >= 0 ? `+ ${newValue}` : `- ${Math.abs(newValue)}`]. *)
Definition updatedValue_of (newValue : Z) : string :=
  if (0 <=? newValue)%Z then "+ " +:+ show_Z newValue
  else "- " +:+ show_Z (Z.abs newValue).

(** How far the action got with the content of the message. *)
Inductive patch : Type :=
| Patched (content : string)
| NoFormula
| Caught.

(** [_onChatCardAction], from the three regular expressions to the
    rewriting of the total: the content it has then built.  [NoFormula]: the
    content holds no dice-formula block and the message is left alone.
    [Caught]: an exception, on a missing dice-total block or thrown by
    [Roll.safeEval], went to the catch-all, and the message is left alone.
    What follows in the source selects the result band and rewrites the
    blocks of the result with it. *)
Definition _onChatCardAction (host : Host) (action content : string) : patch :=
  match match_block dice_formula_open div_close content with
  | None => NoFormula
  | Some (_, diceFormula1, _) =>
      let roll := diceFormula1 in
      let plusMinusMatch := match_plusMinus roll in
      let value :=
        match plusMinusMatch with
        | Some (_, matched, _) => matched
        | None => EmptyString
        end in
      let shift := if String.eqb action "shiftUp" then 1 else -1 in
      match Roll_safeEval host (value +:+ " + " +:+ show_Z shift) with
      | None => Caught
      | Some newValue =>
          let updatedValue := updatedValue_of newValue in
          let roll :=
            match plusMinusMatch with
            | Some _ => replace_plusMinus roll updatedValue
            | None => roll +:+ " " +:+ updatedValue
            end in
          let content := replace_string content diceFormula1 roll in
          match match_block dice_total_open h4_close content with
          | None => Caught
          | Some (_, diceTotal1, _) =>
              match Roll_safeEval host (diceTotal1 +:+ " + " +:+ show_Z shift) with
              | None => Caught
              | Some total =>
                  Patched (replace_block dice_total_open h4_close content
                             (dice_total_open +:+ show_Z total +:+ h4_close))
              end
          end
      end
  end.

End ItemPbta.

(** ** ItemPbta.roll: which card, which formula *)

Module Roll.

Import ItemPbta.

(** What [roll] reads: the options, the item and its system data, the stats
    of the owning actor ([this.actor.system.stats], a plain object: each
    own stat with the truthiness of its [toggle]; [None] when the item has
    no actor) and [game.pbta.sheetConfig.statToggle.modifier]. *)
Record input : Type := {
  descriptionOnly : bool;
  type : string;
  rollType : option string;
  rollFormula : option string;
  rollMod : value;
  actor_stats : option (gmap string bool);
  statToggle_modifier : Z
}.

(** What [roll] does next: it renders the description of the item, or it
    builds a roll from a formula (which is [undefined] when it was taken
    from an unset [rollFormula]) for a stat, shown with a roll type. *)
Inductive plan : Type :=
| Description
| Rolls (formula : option string) (stat : string) (shownRollType : string).

(** [x + s] for a string [s]: an [undefined] left operand reads
    "undefined". *)
Definition concat (formula : option string) (s : string) : option string :=
  Some (default "undefined" formula +:+ s).

(** The formula and the stat before [rollMod] is looked at.  A stat that
    the actor does not have but that names a member of [Object.prototype]
    reads that member, whose [toggle] is [undefined]. *)
Definition formula_and_stat (i : input) (shown : string) : result (option string * string) :=
  let formula := Some "@formula" in
  let stat := "" in
  if (String.eqb (type i) "npcMove" || String.eqb shown "formula")%bool
  then Ok (rollFormula i, stat)
  else if negb (bool_decide (shown ∈ ["ask"; "prompt"; "formula"]))
  then
    let stat := shown in
    let formula := concat formula ("+ @stats." +:+ stat +:+ ".value") in
    match actor_stats i with
    | None => Throw (TypeError "Cannot read properties of null")
    | Some stats =>
        match stats !! stat with
        | None =>
            if bool_decide (stat ∈ Object_prototype_names)
            then Ok (formula, stat)
            else Throw (TypeError "Cannot read properties of undefined")
        | Some toggle =>
            if (toggle : bool) then
              let modifier := statToggle_modifier i in
              Ok (concat formula
                    ((if (0 <=? modifier)%Z then "+" else "") +:+ " " +:+ show_Z modifier),
                  stat)
            else Ok (formula, stat)
        end
    end
  else Ok (formula, stat).

Definition roll (i : input) : result plan :=
  if (descriptionOnly i || String.eqb (type i) "equipment"
      || (negb (String.eqb (type i) "npcMove")
          && negb (truthy (from_option VString VUndefined (rollType i)))))%bool
  then Ok Description
  else
    let shown := default "move" (rollType i) in
    match formula_and_stat i shown with
    | Throw e => Throw e
    | Ok (formula, stat) =>
        let formula := if truthy (rollMod i) then concat formula " + @rollMod" else formula in
        Ok (Rolls formula stat shown)
    end.

End Roll.

(** ** Chat card: toggling the content *)

Module ChatToggle.

(** [d === "none" ? "" : "none"] *)
Definition toggled (display : string) : string :=
  if String.eqb display "none" then "" else "none".

(** [_onChatCardToggleContent] on the inline display of the card content,
    [None] when the card has no such element: the handler does not test for
    it. *)
Definition _onChatCardToggleContent (content : option string) : result string :=
  match content with
  | Some display => Ok (toggled display)
  | None => Throw (TypeError "Cannot read properties of null")
  end.

(** [_onChatCardResultToggleContent] on the inline displays of the result
    details and of the result choices, each when the row has one. *)
Definition _onChatCardResultToggleContent (row : option string * option string)
  : option string * option string :=
  (toggled <$> row.1, toggled <$> row.2).

End ChatToggle.

(** ** Chat card: the shift action, to the update of the message *)

Module ShiftAction.

Import Str ItemPbta.

(** [_onChatCardAction] as far as the rewriting of the total, with the total
    it has computed. *)
Inductive shifted : Type :=
| Shifted (content : string) (total : Z)
| ShiftNoFormula
| ShiftCaught.

Definition shift (host : Host) (action content : string) : shifted :=
  match match_block dice_formula_open div_close content with
  | None => ShiftNoFormula
  | Some (_, diceFormula1, _) =>
      let roll := diceFormula1 in
      let plusMinusMatch := match_plusMinus roll in
      let value :=
        match plusMinusMatch with
        | Some (_, matched, _) => matched
        | None => EmptyString
        end in
      let shift := if String.eqb action "shiftUp" then 1 else -1 in
      match Roll_safeEval host (value +:+ " + " +:+ show_Z shift) with
      | None => ShiftCaught
      | Some newValue =>
          let updatedValue := updatedValue_of newValue in
          let roll :=
            match plusMinusMatch with
            | Some _ => replace_plusMinus roll updatedValue
            | None => roll +:+ " " +:+ updatedValue
            end in
          let content := replace_string content diceFormula1 roll in
          match match_block dice_total_open h4_close content with
          | None => ShiftCaught
          | Some (_, diceTotal1, _) =>
              match Roll_safeEval host (diceTotal1 +:+ " + " +:+ show_Z shift) with
              | None => ShiftCaught
              | Some total =>
                  Shifted (replace_block dice_total_open h4_close content
                             (dice_total_open +:+ show_Z total +:+ h4_close))
                          total
              end
          end
      end
  end.

(** A result band of [game.pbta.sheetConfig.rollResults]: its bounds, each
    a number or unset. *)
Record Band : Type := {
  band_start : option Z;
  band_end : option Z
}.

(** The bands in the order of their keys. *)
Definition RollResults : Type := list (string * Band).

(** The truthiness of a bound: unset and 0 are not bounds. *)
Definition bounds (b : option Z) : bool :=
  match b with
  | Some n => negb (Z.eqb n 0)
  | None => false
  end.

(** [(!start || total >= start) && (!end || total <= end)] *)
Definition holds (band : Band) (total : Z) : bool :=
  ((negb (bounds (band_start band)) || (default 0 (band_start band) <=? total)%Z)
   && (negb (bounds (band_end band)) || (total <=? default 0 (band_end band))%Z))%bool.

(** [rollResults[key]] *)
Definition band_of (rollResults : RollResults) (key : string) : option Band :=
  snd <$> List.find (fun kb => String.eqb kb.1 key) rollResults.

(** The text of a value that may be [undefined], in a template literal or
    as a property key. *)
Definition text_of (k : option string) : string := default "undefined" k.

(** The test that the total has left the band of the result on the side of
    the shift. *)
Definition leaves (rollResults : option RollResults) (resultType : option string)
    (action : string) (total : Z) : bool :=
  let band := rollResults ≫= (fun r => band_of r (text_of resultType)) in
  let start := band ≫= band_start in
  let end_ := band ≫= band_end in
  ((String.eqb action "shiftUp" && bounds end_ && (default 0 end_ <? total)%Z)
   || (String.eqb action "shiftDown" && bounds start && (total <? default 0 start)%Z))%bool.

(** The first band, other than the band of the result, that holds the
    total. *)
Definition newResult_of (rollResults : RollResults) (resultType : option string) (total : Z)
  : option string :=
  List.find
    (fun k => match band_of rollResults k with
              | Some band => holds band total
              | None => false
              end)
    (List.filter (fun k => negb (bool_decide (Some k = resultType))) rollResults.*1).

(** The options of [message.rolls[0]] that the action reads. *)
Record RollOptions : Type := {
  resultType : option string;
  rollType : option string
}.

(** An entry of [item.system.moveResults]. *)
Record MoveResult : Type := {
  label : option string;
  value : option string
}.

(** The item behind the message: [None] when [fromUuid] finds none, and
    else its [system.moveResults], [None] when it has none. *)
Definition SourceItem : Type := option (option (gmap string MoveResult)).

(** A lazy match, starting at the head of [s], of [opening], a shortest run
    of characters, and [closing]; the run stays on the line unless
    [across] is set.  Answers the run and what follows the match. *)
Definition lazy_here (opening closing : string) (across : bool) (s : string)
  : option (string * string) :=
  match strip_prefix opening s with
  | None => None
  | Some rest =>
      if across then split_first closing rest
      else
        let '(line, below) := span (fun c => negb (is_line_terminator c)) rest in
        match split_first closing line with
        | Some (run, after) => Some (run, after +:+ below)
        | None => None
        end
  end.

(** The leftmost such match. *)
Fixpoint match_lazy (opening closing : string) (across : bool) (s : string)
  : option (string * string * string) :=
  match lazy_here opening closing across s with
  | Some (run, after) => Some (EmptyString, run, after)
  | None =>
      match s with
      | EmptyString => None
      | String c s' =>
          match match_lazy opening closing across s' with
          | Some (before, run, after) => Some (String c before, run, after)
          | None => None
          end
      end
  end.

(** [s.replace(re, repl)] for such a pattern; the run is a capture group
    when [captured] is set. *)
Definition replace_lazy (opening closing : string) (across captured : bool) (s repl : string)
  : string :=
  match match_lazy opening closing across s with
  | Some (before, run, after) =>
      before
      +:+ expand (if captured then [run] else []) (opening +:+ run +:+ closing) before after repl
      +:+ after
  | None => s
  end.

Definition row_result_open : string := "<div class=" +:+ quote +:+ "row result ".
Definition roll_open : string := "<div class=" +:+ quote +:+ "roll ".
Definition tag_end : string := quote +:+ ">".
Definition result_label_open : string :=
  "<div class=" +:+ quote +:+ "result-label" +:+ quote +:+ ">".
Definition result_details_open : string :=
  "<div class=" +:+ quote +:+ "result-details" +:+ quote +:+ ">".

(** The four replacements that put the new result on the card. *)
Definition rewrite_result (content : string) (newResult : option string)
    (moveResult : MoveResult) : string :=
  let content :=
    replace_lazy row_result_open tag_end false true content
      (row_result_open +:+ text_of newResult +:+ tag_end) in
  let content :=
    replace_lazy roll_open tag_end false true content
      (roll_open +:+ text_of newResult +:+ tag_end) in
  let content :=
    replace_lazy result_label_open div_close false true content
      (result_label_open +:+ text_of (label moveResult) +:+ div_close) in
  replace_lazy result_details_open div_close true false content
    (result_details_open +:+ text_of (value moveResult) +:+ div_close).

(** [item.system.moveResults[key]], as far as its [label] and [value] are
    read: an own result; for a name of [Object.prototype], the member,
    which has neither; else [undefined]. *)
Definition moveResult_of (moveResults : gmap string MoveResult) (key : string)
  : option MoveResult :=
  match moveResults !! key with
  | Some moveResult => Some moveResult
  | None =>
      if bool_decide (key ∈ Object_prototype_names)
      then Some {| label := None; value := None |}
      else None
  end.

(** What the action does with the message. *)
Inductive outcome : Type :=
| Updated (content : string) (resultType : option string)
| Untouched
| Caught.

(** [_onChatCardAction]: [rolls0] are the options of the first roll of the
    message, [None] when the message has no roll; [item] is what [fromUuid]
    answers for the item flagged on the message.  [Updated]: the message is
    updated with that content, and with its rolls, of which the result type
    of the first is as given.  [Untouched]: the content holds no
    dice-formula block.  [Caught]: an exception went to the catch-all, and
    the message is not updated. *)
Definition _onChatCardAction (host : Host) (rollResults : option RollResults)
    (item : SourceItem) (action content : string) (rolls0 : option RollOptions) : outcome :=
  match shift host action content with
  | ShiftNoFormula => Untouched
  | ShiftCaught => Caught
  | Shifted content total =>
      match rolls0 with
      | None => Caught
      | Some options =>
          if leaves rollResults (resultType options) action total then
            match rollResults with
            | None => Caught
            | Some results =>
                let newResult := newResult_of results (resultType options) total in
                if bool_decide (rollType options = Some "move"
                                ∨ rollType options = Some "npcMove") then
                  match item with
                  | Some (Some moveResults) =>
                      match moveResult_of moveResults (text_of newResult) with
                      | None => Caught
                      | Some moveResult =>
                          Updated (rewrite_result content newResult moveResult) newResult
                      end
                  | _ => Updated content newResult
                  end
                else Updated content newResult
            end
          else Updated content (resultType options)
      end
  end.

End ShiftAction.

(** ** ItemPbta._preCreate *)

Module PreCreate.

(** [v[k]] where reading a property of [null] or [undefined] throws. *)
Definition read (v : value) (k : string) : result value :=
  if nullish v then Throw (TypeError "Cannot read properties of undefined or null")
  else Ok (get_prop v k).

(** [Object.entries(v)], which throws on [null] and [undefined]. *)
Definition entries (v : value) : result (list (string * value)) :=
  if nullish v then Throw (TypeError "Cannot convert undefined or null to object")
  else Ok (Object_entries v).

(** The parent actor, as far as the hook reads it:
    [actor.system?.customType] and [actor.type]. *)
Record Actor : Type := {
  customType : value;
  actor_type : string
}.

(** The document under creation, through the views the hook takes of it:
    [duplicate(this).system], [this.toObject(false).system], and of
    [this.system] the two properties read. *)
Record Document : Type := {
  type : string;
  name : string;
  duplicate_system : value;
  toObject_system : value;
  system_actorType : value;
  system_slug : value;
  actor : option Actor;
  sourceId : option string
}.

(** The calls of [this.updateSource]. *)
Inductive update : Type :=
| SetSystem (system : value)
| SetActorType (actorType : value)
| SetSlug (slug : string).

(** What the hook reads from the host: [game.pbta.sheetConfig.rollResults],
    [foundry.utils.mergeObject], [String.prototype.slugify], and what
    [updateSource] makes of the document. *)
Record Host : Type := {
  rollResults : value;
  mergeObject : value → value → value;
  slugify : string → string;
  updateSource : Document → update → Document
}.

(** The blank result seeded for a key of the configuration. *)
Definition blank_result (key : string) (label : value) : value :=
  VObject {[ "key" := VString ("system.moveResults." +:+ key +:+ ".value");
             "label" := label;
             "value" := VString "" ]}.

(** The loop over the configured results: a key whose entry is missing or
    falsy gets a blank result. *)
Fixpoint seed_results (moveResults : value) (ranges : list (string * value)) : result value :=
  match ranges with
  | [] => Ok moveResults
  | (key, range) :: ranges =>
      if negb (truthy (get_prop moveResults key)) then
        label ← read range "label";
        moveResults ← set_prop moveResults key (blank_result key label);
        seed_results moveResults ranges
      else seed_results moveResults ranges
  end.

(** [templateData.system] after the loop, for a move or an npc move.  The
    loop writes into the object that [templateData.system.moveResults] is;
    the last line puts the object it has built back in its place. *)
Definition templateData_system (host : Host) (this : Document) : result value :=
  let system := if negb (truthy (duplicate_system this)) then VObject ∅
                else duplicate_system this in
  system ← (if negb (truthy (get_prop system "moveResults"))
            then set_prop system "moveResults" (VObject ∅)
            else Ok system);
  ranges ← entries (rollResults host);
  moveResults ← seed_results (get_prop system "moveResults") ranges;
  set_prop system "moveResults" moveResults.

Definition starts_with (p s : string) : bool :=
  match Str.strip_prefix p s with
  | Some _ => true
  | None => false
  end.

(** [sourceId?.startsWith("Compendium.")] *)
Definition imported (this : Document) : bool :=
  match sourceId this with
  | Some id => starts_with "Compendium." id
  | None => false
  end.

(** The document after the updates made so far. *)
Definition applied (host : Host) (this : Document) (updates : list update) : Document :=
  foldl (updateSource host) this updates.

(** The first part of the hook: the update of a move or an npc move. *)
Definition moves (host : Host) (this : Document) : result (list update) :=
  if (String.eqb (type this) "move" || String.eqb (type this) "npcMove")%bool
  then system ← templateData_system host this;
       Ok [SetSystem (mergeObject host system (toObject_system this))]
  else Ok [].

(** The second part: the actor type of an item created on an actor. *)
Definition actorTypes (this : Document) : list update :=
  match actor this with
  | Some a =>
      match system_actorType this with
      | VUndefined => []
      | _ => [SetActorType (coalesce (customType a) (VString (actor_type a)))]
      end
  | None => []
  end.

(** The last part: the slug of a playbook that is not imported. *)
Definition slugs (host : Host) (this : Document) : list update :=
  if imported this then []
  else if (String.eqb (type this) "playbook" && negb (truthy (system_slug this)))%bool
  then [SetSlug (slugify host (name this))]
  else [].

(** The hook, after the inherited one: the updates of the source, in
    order, each part reading the document as the updates before it have
    left it. *)
Definition _preCreate (host : Host) (this : Document) : result (list update) :=
  first ← moves host this;
  let second := actorTypes (applied host this first) in
  let third := slugs host (applied host this (first ++ second)%list) in
  Ok (first ++ second ++ third)%list.

End PreCreate.

(** ** ItemPbta.getActorTypes *)

Module ActorTypes.

(** An entry of [game.pbta.sheetConfig.actorTypes]. *)
Record ActorTypeConfig : Type := {
  baseType : option string;
  equipmentTypes : value;
  label : option string
}.

(** What the method reads from the host: the configured actor types,
    [CONFIG.Actor.typeLabels] when there are any, [game.i18n.has] and
    [game.i18n.localize]. *)
Record Host : Type := {
  actorTypes : gmap string ActorTypeConfig;
  typeLabels : option (gmap string string);
  i18n_has : string → bool;
  i18n_localize : string → string
}.

(** The filter [filters(a)] for an item of type [type], on an actor type
    [a] of the configuration. *)
Definition filters (host : Host) (type a : string) : bool :=
  if String.eqb type "equipment" then
    match actorTypes host !! a with
    | Some config => truthy (equipmentTypes config)
    | None => false
    end
  else if (String.eqb type "move" || String.eqb type "playbook")%bool then
    (String.eqb a "character"
     || bool_decide ((actorTypes host !! a) ≫= baseType = Some "character"))%bool
  else if String.eqb type "npcMove" then
    (String.eqb a "npc"
     || bool_decide ((actorTypes host !! a) ≫= baseType = Some "npc"))%bool
  else false.

Definition label_of (host : Host) (a : string) (config : ActorTypeConfig) : string :=
  let pbtaLabel := label config in
  let label := default a (typeLabels host ≫= (fun labels => labels !! a)) in
  match pbtaLabel with
  | Some l => l
  | None => if i18n_has host label then i18n_localize host label else a
  end.

(** The valid actor types of an item of type [type], each with its label. *)
Definition getActorTypes (host : Host) (type : string) : gmap string string :=
  list_to_map
    (List.map (fun av => (av.1, label_of host av.1 av.2))
       (List.filter (fun av => filters host type av.1) (map_to_list (actorTypes host)))).

End ActorTypes.

(** ** The move data shared between moves and npc moves *)

Module MoveData.

Import MappingField.

(** The [moveResults] field of [createMoveData]: a mapping field over the
    schema of a result, with the options [{ initialKeys: {} }] merged over
    the defaults.  [schema] is the host's [SchemaField] of the three
    sub-fields. *)
Definition moveResults (schema : DataField) (super_getInitialValue : value → value)
  : result MappingField.t :=
  MappingField.new (IsDataField schema)
    {| opt_initialKeys := Some (KeysObject ∅);
       opt_initialValue := opt_initialValue (_defaults super_getInitialValue);
       opt_initialKeysOnly := opt_initialKeysOnly (_defaults super_getInitialValue);
       opt_super_getInitialValue := super_getInitialValue |}.

End MoveData.

Import MappingField ItemPbta.

(** * Vocabulary of the statements, and sample data *)

(** The configured seed-key set K. *)
Definition seed_keys (this : MappingField.t) : gset string :=
  match initialKeys this with
  | None => ∅
  | Some (KeysArray keys) => list_to_set keys
  | Some (KeysObject o) => dom o
  end.

(** The override of an item is unset, empty or rejected by
    [Roll.validate]. *)
Definition no_valid_override (host : Host) (this : Item) : Prop :=
  rollFormula (system this) = None
  ∨ rollFormula (system this) = Some ""
  ∨ ∃ formula, rollFormula (system this) = Some formula ∧ Roll_validate host formula = false.

(** The two blocks as they read in a content. *)
Definition displayed_formula (content : string) : option string :=
  (fun m => m.1.2) <$> match_block dice_formula_open div_close content.

Definition displayed_total (content : string) : option string :=
  (fun m => m.1.2) <$> match_block dice_total_open h4_close content.

(** A contained field for the examples: it cleans a string by trimming it,
    starts from the empty string, rejects everything but strings and
    initializes a value to itself. *)
Definition string_field : DataField :=
  {| df_clean := fun v _ => match v with VString s => VString (Str.trim s) | _ => v end;
     df_getInitialValue := fun _ => VString "";
     df_validate := fun v _ =>
       match v with
       | VString _ => None
       | _ => Some (Error "must be a string")
       end;
     df_initialize := fun v _ _ => v |}.

(** The inherited initial value of an [ObjectField] with default options. *)
Definition empty_object : value → value := fun _ => VObject ∅.

Definition seeded_field (keys : list string) (only : bool) : MappingField.t :=
  {| model := string_field;
     initialKeys := Some (KeysArray keys);
     initialValue := None;
     initialKeysOnly := only;
     super_getInitialValue := empty_object |}.

(** A field whose per-key function names each record after its key. *)
Definition keyed_field : MappingField.t :=
  {| model := string_field;
     initialKeys := Some (KeysArray ["a"]);
     initialValue := Some (fun key _ _ => VString key);
     initialKeysOnly := false;
     super_getInitialValue := empty_object |}.

Definition playbook_item (name uuid : string) : Item :=
  {| type := "playbook";
     name := name;
     uuid := uuid;
     system := {| slug := None; actorType := None; rollType := None; rollFormula := None |};
     actor := None |}.

Definition the_stray : Item := playbook_item "The Stray" "Item.stray".
Definition the_listed : Item := playbook_item "The Listed" "Item.listed".

Definition one_playbook : registry :=
  {| elems := [entry_of the_listed]; named := ∅ |}.

Definition move_item (rollType rollFormula : option string) (actor : option Actor) : Item :=
  {| type := "move";
     name := "Act Under Pressure";
     uuid := "Item.move";
     system := {| slug := None; actorType := None;
                  rollType := rollType; rollFormula := rollFormula |};
     actor := actor |}.

Fixpoint digits_value (acc : Z) (s : string) : option Z :=
  match s with
  | EmptyString => Some acc
  | String c s' =>
      if Str.is_digit c
      then digits_value (10 * acc + Z.of_nat (Str.digit_value c)) s'
      else None
  end.

(** A decimal integer literal without leading zero, with an optional sign;
    white space may surround the sign and the digits. *)
Definition integer_literal (s : string) : option Z :=
  let unsigned (digits : string) : option Z :=
    match digits with
    | EmptyString => None
    | String "0" (String _ _) => None
    | _ => digits_value 0 digits
    end in
  match Str.trim s with
  | EmptyString => None
  | String c rest as body =>
      if Ascii.eqb c "-" then Z.opp <$> unsigned (Str.trimStart rest)
      else if Ascii.eqb c "+" then unsigned (Str.trimStart rest)
      else unsigned body
  end.

(** An evaluator for the examples: the sum of two integer literals, the
    left one possibly missing; it has no answer on other texts. *)
Definition sum_of_literals (expression : string) : option Z :=
  match Str.split_last " + " expression with
  | Some (lhs, rhs) =>
      r ← integer_literal rhs;
      match Str.trim lhs with
      | EmptyString => Some r
      | _ => l ← integer_literal lhs; Some (l + r)
      end
  | None => None
  end.

(** A host for the examples: [Roll.validate] accepts the texts that hold a
    digit, [Roll.safeEval] adds literals, and the configuration sets no
    formula. *)
Definition sample_host : Host :=
  {| Roll_validate := fun formula =>
       match Str.span (fun c => negb (Str.is_digit c)) formula with
       | (_, EmptyString) => false
       | _ => true
       end;
     Roll_safeEval := sum_of_literals;
     sheetConfig_rollFormula := None |}.

Definition newline : string := String (ascii_of_nat 10) EmptyString.

(** The dice block of a rendered roll, one element per line. *)
Definition dice_card (formula total : string) : string :=
  "<div class=" +:+ quote +:+ "dice-result" +:+ quote +:+ ">" +:+ newline
  +:+ dice_formula_open +:+ formula +:+ div_close +:+ newline
  +:+ dice_total_open +:+ total +:+ h4_close +:+ newline
  +:+ "</div>".

(** ** Vocabulary of the further properties *)

(** The identifiers listed by a registry, in order. *)
Definition listed_uuids (playbooks : registry) : list string :=
  pb_uuid <$> elems playbooks.

(** Looking a playbook up by identifier, as [Array.prototype.find] with the
    test of the hooks does. *)
Definition lookup_uuid (u : string) (playbooks : registry) : option PlaybookEntry :=
  List.find (fun p => String.eqb (pb_uuid p) u) (elems playbooks).

(** The entries listed under other identifiers than [u], in order. *)
Definition others_of (u : string) (playbooks : registry) : list PlaybookEntry :=
  List.filter (fun p => negb (String.eqb (pb_uuid p) u)) (elems playbooks).

(** A roll of the stat "cool", toggled, with a roll modifier. *)
Definition stat_roll : Roll.input :=
  {| Roll.descriptionOnly := false;
     Roll.type := "move";
     Roll.rollType := Some "cool";
     Roll.rollFormula := Some "";
     Roll.rollMod := VNumber 2;
     Roll.actor_stats := Some {["cool" := true; "hard" := false]};
     Roll.statToggle_modifier := 1 |}.

(** Three result bands that leave the totals above 12 uncovered. *)
Definition bounded_bands : ShiftAction.RollResults :=
  [("failure", {| ShiftAction.band_start := None; ShiftAction.band_end := Some 6 |});
   ("partial", {| ShiftAction.band_start := Some 7; ShiftAction.band_end := Some 9 |});
   ("success", {| ShiftAction.band_start := Some 10; ShiftAction.band_end := Some 12 |})].

(** The results of a move, one per band. *)
Definition move_results : gmap string ShiftAction.MoveResult :=
  {[ "failure" := {| ShiftAction.label := Some "Miss"; ShiftAction.value := Some "" |};
     "partial" := {| ShiftAction.label := Some "Partial"; ShiftAction.value := Some "" |};
     "success" := {| ShiftAction.label := Some "Hit"; ShiftAction.value := Some "" |} ]}.

Definition rolled (resultType : string) : ShiftAction.RollOptions :=
  {| ShiftAction.resultType := Some resultType; ShiftAction.rollType := Some "move" |}.

(** Two configured results, and a move under creation that has one of
    them. *)
Definition configured_results : gmap string value :=
  {[ "failure" := VObject {[ "label" := VString "Miss" ]};
     "success" := VObject {[ "label" := VString "Hit" ]} ]}.

Definition create_host : PreCreate.Host :=
  {| PreCreate.rollResults := VObject configured_results;
     PreCreate.mergeObject := fun original other => original;
     PreCreate.slugify := fun s => s;
     PreCreate.updateSource := fun this update => this |}.

Definition own_success : gmap string value :=
  {[ "success" := VObject {[ "label" := VString "Strong hit" ]} ]}.

Definition new_move : PreCreate.Document :=
  {| PreCreate.type := "move";
     PreCreate.name := "Act Under Fire";
     PreCreate.duplicate_system := VObject {[ "moveResults" := VObject own_success ]};
     PreCreate.toObject_system := VObject {[ "moveResults" := VObject own_success ]};
     PreCreate.system_actorType := VUndefined;
     PreCreate.system_slug := VUndefined;
     PreCreate.actor := None;
     PreCreate.sourceId := None |}.

Definition new_playbook : PreCreate.Document :=
  {| PreCreate.type := "playbook";
     PreCreate.name := "The Driver";
     PreCreate.duplicate_system := VObject ∅;
     PreCreate.toObject_system := VObject ∅;
     PreCreate.system_actorType := VString "";
     PreCreate.system_slug := VString "";
     PreCreate.actor := None;
     PreCreate.sourceId := None |}.

(** A configuration whose actor type "character" is based on "npc". *)
Definition crossed_host : ActorTypes.Host :=
  {| ActorTypes.actorTypes :=
       {[ "character" := {| ActorTypes.baseType := Some "npc";
                            ActorTypes.equipmentTypes := VUndefined;
                            ActorTypes.label := None |} ]};
     ActorTypes.typeLabels := None;
     ActorTypes.i18n_has := fun _ => false;
     ActorTypes.i18n_localize := fun s => s |}.

(** The row of a rendered move: the result on the row and on the roll, the
    dice block, the label and the details of the result, one element per
    line. *)
Definition result_card (result label details formula total : string) : string :=
  ShiftAction.row_result_open +:+ result +:+ ShiftAction.tag_end +:+ newline
  +:+ ShiftAction.roll_open +:+ result +:+ ShiftAction.tag_end +:+ newline
  +:+ dice_card formula total +:+ newline
  +:+ div_close +:+ newline
  +:+ ShiftAction.result_label_open +:+ label +:+ div_close +:+ newline
  +:+ ShiftAction.result_details_open +:+ details +:+ div_close +:+ newline
  +:+ div_close.

(** A mapping field over a contained field whose [clean] appends a mark to
    a text. *)
Definition marking_field : MappingField.t :=
  {| model :=
       {| df_clean := fun v _ => match v with VString s => VString (s +:+ "!") | _ => v end;
          df_getInitialValue := fun _ => VString "";
          df_validate := fun _ _ => None;
          df_initialize := fun v _ _ => v |};
     initialKeys := None;
     initialValue := None;
     initialKeysOnly := false;
     super_getInitialValue := empty_object |}.

(** A registry that lists one identifier twice, after another. *)
Definition two_listed : registry :=
  {| elems := [entry_of the_stray; entry_of the_listed; entry_of the_listed]; named := ∅ |}.


(** * Reads and assignments *)

Lemma proto_is_inherited : "__proto__" ∈ Object_prototype_names.
Proof. unfold Object_prototype_names. do 10 apply list_elem_of_further. apply list_elem_of_here. Qed.

(** A read finds an own property first. *)
Lemma get_prop_own (o : gmap string value) (k : string) (x : value) :
  o !! k = Some x → get_prop (VObject o) k = x.
Proof. intros Hk. unfold get_prop. cbn [find_prop]. by rewrite Hk. Qed.

(** A name that the object does not have and that [Object.prototype] does
    not have either reads [undefined]. *)
Lemma get_prop_missing (o : gmap string value) (k : string) :
  o !! k = None → k ∉ Object_prototype_names → get_prop (VObject o) k = VUndefined.
Proof.
  intros Hk Hnot. unfold get_prop. cbn [find_prop]. rewrite Hk.
  unfold Object_prototype_lookup.
  destruct (String.eqb_spec k "__proto__") as [Heq | _].
  { exfalso. apply Hnot. rewrite Heq. apply proto_is_inherited. }
  by rewrite bool_decide_eq_false_2.
Qed.

(** A name of [Object.prototype] that the object does not have reads a
    built-in, which is neither [null] nor [undefined]. *)
Lemma get_prop_inherited (o : gmap string value) (k : string) :
  o !! k = None → k ∈ Object_prototype_names →
  ∃ b, get_prop (VObject o) k = VBuiltin b.
Proof.
  intros Hk Hin. unfold get_prop. cbn [find_prop]. rewrite Hk.
  unfold Object_prototype_lookup.
  destruct (String.eqb k "__proto__"); [by eexists |].
  rewrite bool_decide_eq_true_2 by done. by eexists.
Qed.

(** An assignment to an own property updates it, whatever its name. *)
Lemma put_own (o : gmap string value) (k : string) (x : value) :
  is_Some (o !! k) → put (VObject o) k x = VObject (<[k := x]> o).
Proof. intros [y Hk]. unfold put, write. by rewrite Hk. Qed.

(** An assignment under a name other than [__proto__] defines or updates
    an own property. *)
Lemma put_named (o : gmap string value) (k : string) (x : value) :
  k ≠ "__proto__" → put (VObject o) k x = VObject (<[k := x]> o).
Proof.
  intros Hk. unfold put, write. destruct (o !! k); [done |].
  cbn [find_prop]. unfold Object_prototype_lookup.
  apply String.eqb_neq in Hk. rewrite Hk. by destruct (bool_decide _).
Qed.

(** An assignment to [__proto__] on an object that has no such property of
    its own defines none: it replaces the prototype, or does nothing. *)
Lemma put_proto (o : gmap string value) (x : value) :
  o !! "__proto__" = None →
  put (VObject o) "__proto__" x = if object_or_null x then with_prototype x o else VObject o.
Proof. intros Hk. unfold put, write. rewrite Hk. reflexivity. Qed.

(** A loop of assignments under names other than [__proto__]. *)
Lemma foldl_put (g : string → value) (keys : list string) (m : gmap string value) :
  "__proto__" ∉ keys →
  foldl (fun obj key => put obj key (g key)) (VObject m) keys
  = VObject (foldl (fun obj key => <[key := g key]> obj) m keys).
Proof.
  revert m. induction keys as [| key keys IH]; intros m Hnot; [done |].
  apply not_elem_of_cons in Hnot as [Hkey Hkeys].
  cbn [foldl]. rewrite put_named by done. by apply IH.
Qed.

(** * Properties of MappingField *)

Section Folds.

Context {V : Type}.

(** A loop that stores [g key] under each key of a list. *)
Lemma foldl_insert_lookup (g : string → V) (keys : list string) (m : gmap string V) (k : string) :
  foldl (fun obj key => <[key := g key]> obj) m keys !! k
  = if bool_decide (k ∈ keys) then Some (g k) else m !! k.
Proof.
  revert m. induction keys as [|key keys IH]; intros m.
  - case_bool_decide as Hin; [by apply elem_of_nil in Hin | done].
  - cbn [foldl]. rewrite IH.
    destruct (decide (k ∈ keys)) as [Hin | Hnin].
    + rewrite !bool_decide_eq_true_2; [done | by right | done].
    + rewrite (bool_decide_eq_false_2 _ Hnin).
      destruct (decide (k = key)) as [-> | Hne].
      * rewrite lookup_insert_eq, bool_decide_eq_true_2; [done | by left].
      * rewrite lookup_insert_ne by done.
        rewrite bool_decide_eq_false_2; [done |].
        rewrite elem_of_cons. tauto.
Qed.

Lemma foldl_insert_dom (g : string → V) (keys : list string) (m : gmap string V) :
  dom (foldl (fun obj key => <[key := g key]> obj) m keys) = dom m ∪ list_to_set keys.
Proof.
  apply set_eq; intros k.
  rewrite elem_of_dom, foldl_insert_lookup, elem_of_union, elem_of_list_to_set, elem_of_dom.
  case_bool_decide; [| tauto].
  split; [by right | by eexists].
Qed.

End Folds.

Section Entries.

Context {A B : Type}.

(** A loop over the entries of an object that stores, under each key, what
    [g] makes of the entry, and skips the entries on which [g] has no
    answer. *)
Lemma foldl_entries_lookup (g : A → option B) (l : list (string * A)) (m : gmap string B)
    (k : string) :
  NoDup l.*1 →
  foldl (fun acc kv => match g kv.2 with Some b => <[kv.1 := b]> acc | None => acc end) m l !! k
  = match (list_to_map l : gmap string A) !! k with
    | Some a => match g a with Some b => Some b | None => m !! k end
    | None => m !! k
    end.
Proof.
  revert m. induction l as [|[k' a] l IH]; intros m Hnd; [done |].
  rewrite fmap_cons in Hnd. cbn [fst] in Hnd.
  pose proof (NoDup_cons_1_1 _ _ Hnd) as Hk'. apply NoDup_cons_1_2 in Hnd.
  cbn [foldl fst snd].
  rewrite IH by done. cbn [list_to_map foldr fst snd].
  destruct (decide (k = k')) as [-> | Hne].
  - rewrite lookup_insert_eq, (not_elem_of_list_to_map_1 l k' Hk').
    destruct (g a); [by rewrite lookup_insert_eq | done].
  - rewrite (lookup_insert_ne _ k' k) by done.
    destruct (g a); [by rewrite lookup_insert_ne by done | done].
Qed.

End Entries.

Lemma Object_keys_object (o : gmap string value) :
  list_to_set (Object_keys (VObject o)) = dom o.
Proof.
  apply set_eq; intros k. unfold Object_keys; simpl.
  rewrite elem_of_list_to_set, elem_of_dom, list_elem_of_fmap.
  split.
  - intros [[k' v] [-> Hin]]. apply elem_of_map_to_list in Hin. by eexists.
  - intros [v Hv]. exists (k, v). split; [done |]. by apply elem_of_map_to_list.
Qed.

(** ** Initialization *)

(** The keys that [initialize] reads from [options.initialKeys]. *)
Lemma seed_keys_list (this : MappingField.t) :
  list_to_set
    match initialKeys this with
    | Some (KeysArray keys) => keys
    | Some (KeysObject o') => Object_keys (VObject o')
    | None => Object_keys (VObject ∅)
    end = seed_keys this.
Proof.
  unfold seed_keys. destruct (initialKeys this) as [[keys | o'] |].
  - done.
  - apply Object_keys_object.
  - rewrite Object_keys_object. apply dom_empty_L.
Qed.

(** The keys that [initialize] goes over, as a list and as a set. *)
Lemma initialize_keys (this : MappingField.t) (o : gmap string value) :
  list_to_set
    (if initialKeysOnly this
     then match initialKeys this with
          | Some (KeysArray keys) => keys
          | Some (KeysObject o') => Object_keys (VObject o')
          | None => Object_keys (VObject ∅)
          end
     else Object_keys (VObject o))
  = (if initialKeysOnly this then seed_keys this else dom o).
Proof.
  destruct (initialKeysOnly this); [apply seed_keys_list | apply Object_keys_object].
Qed.

Lemma initialize_object (this : MappingField.t) (o : gmap string value) (parent options : value) :
  "__proto__" ∉ (if initialKeysOnly this then seed_keys this else dom o) →
  ∃ obj : gmap string value,
    initialize this (VObject o) parent options = VObject obj
    ∧ dom obj = (if initialKeysOnly this then seed_keys this else dom o)
    ∧ ∀ key v, obj !! key = Some v →
        v = df_initialize (model this)
              (coalesce (get_prop (VObject o) key)
                        (_getInitialValueForKey this key (VObject o)))
              parent options.
Proof.
  intros Hproto. rewrite <- initialize_keys in Hproto |- *.
  unfold initialize. cbn [truthy negb].
  set (keys := if initialKeysOnly this then _ else _) in *.
  rewrite elem_of_list_to_set in Hproto.
  rewrite (foldl_put (fun key => df_initialize (model this)
                        (coalesce (get_prop (VObject o) key)
                                  (_getInitialValueForKey this key (VObject o)))
                        parent options)) by done.
  eexists. split; [reflexivity |]. split.
  - by rewrite foldl_insert_dom, dom_empty_L, (left_id_L ∅ (∪)).
  - intros key v Hv. rewrite foldl_insert_lookup in Hv.
    case_bool_decide; [by simplify_eq | by rewrite lookup_empty in Hv].
Qed.




(** Keys outside K are dropped and a missing seed key is filled, on an
    example. *)
Example initialize_seed_keys_only :
  initialize (seeded_field ["hit"; "miss"] true)
    (VObject {["hit" := VString "You do it"; "extra" := VString "dropped"]})
    VUndefined VUndefined
  = VObject {["hit" := VString "You do it"; "miss" := VString ""]}
  ∧ initialize (seeded_field ["hit"; "miss"] false)
      (VObject {["hit" := VString "You do it"; "extra" := VString "kept"]})
      VUndefined VUndefined
    = VObject {["hit" := VString "You do it"; "extra" := VString "kept"]}.
Proof. split; vm_compute; reflexivity. Qed.

(** C8: [null] and [undefined] are returned unchanged by [initialize],
    whatever the field, its seed keys and its flag are: no key is expanded
    and no entry is initialized. *)
Theorem initialize_null_undefined (this : MappingField.t) (parent options : value) :
  initialize this VNull parent options = VNull
  ∧ initialize this VUndefined parent options = VUndefined.
Proof.
  unfold initialize. cbn [truthy negb]. split; reflexivity.
Qed.

(** The guard is on truthiness: every falsy raw value ([undefined], [null],
    [false], [0], [NaN], the empty string) is returned unchanged. *)
Lemma initialize_falsy (this : MappingField.t) (val parent options : value) :
  truthy val = false → initialize this val parent options = val.
Proof.
  intros Hfalsy. unfold initialize. rewrite Hfalsy. reflexivity.
Qed.

(** The falsy values are the six listed. *)
Lemma truthy_false (val : value) :
  truthy val = false
  ↔ val = VUndefined ∨ val = VNull ∨ val = VBool false ∨ val = VNumber 0 ∨ val = VNaN
    ∨ val = VString "".
Proof.
  split.
  - destruct val as [| | [] | n | | s | o | proto o | b]; cbn; intros H;
      try discriminate H; auto 10.
    + apply negb_false_iff, Z.eqb_eq in H. subst. auto 10.
    + apply negb_false_iff, String.eqb_eq in H. subst. auto 10.
  - intros [-> | [-> | [-> | [-> | [-> | ->]]]]]; reflexivity.
Qed.

(** The empty object is an empty value, yet it is truthy and goes through
    the expansion; with [initialKeysOnly] and the seed key [a], the result
    holds an entry for [a] and is not the value passed. *)
Lemma initialize_empty_object_expands :
  isEmpty (VObject ∅) = true
  ∧ initialize (seeded_field ["a"] true) (VObject ∅) VUndefined VUndefined
    = VObject {["a" := VString ""]}
  ∧ initialize (seeded_field ["a"] true) (VObject ∅) VUndefined VUndefined ≠ VObject ∅.
Proof.
  split; [reflexivity |]. split; [vm_compute; reflexivity |].
  intros H. apply (f_equal (fun v => props v !! "a")) in H.
  vm_compute in H. discriminate H.
Qed.

(** ** Initial value *)

Lemma seed_object (this : MappingField.t) (keys : list string) (m : gmap string value) :
  "__proto__" ∉ keys →
  seed this (VObject m) keys
  = Ok (VObject (foldl (fun obj key => <[key := _getInitialValueForKey this key VUndefined]> obj)
                       m keys)).
Proof.
  revert m. induction keys as [|key keys IH]; intros m Hnot; [reflexivity |].
  apply not_elem_of_cons in Hnot as [Hkey Hkeys].
  cbn [seed set_prop foldl mbind result_bind]. rewrite put_named by done. by apply IH.
Qed.

(** The keys that [getInitialValue] seeds on an empty object. *)
Lemma getInitialValue_seeds (this : MappingField.t) (data : value) :
  super_getInitialValue this data = VObject ∅ →
  ∃ keys : list string,
    getInitialValue this data = seed this (VObject ∅) keys
    ∧ list_to_set keys = seed_keys this.
Proof.
  intros Hsuper. unfold getInitialValue, seed_keys. rewrite Hsuper.
  destruct (initialKeys this) as [[keys | o] |]; cbn [isEmpty negb].
  - exists keys. by rewrite map_to_list_empty.
  - exists (Object_keys (VObject o)). rewrite map_to_list_empty.
    split; [done | apply Object_keys_object].
  - exists []. split; [done | apply list_to_set_nil].
Qed.

Lemma getInitialValueForKey_unfold (this : MappingField.t) (key : string) (object : value) :
  _getInitialValueForKey this key object
  = match initialValue this with
    | Some build =>
        coalesce (build key (df_getInitialValue (model this) VUndefined) object)
                 (df_getInitialValue (model this) VUndefined)
    | None => df_getInitialValue (model this) VUndefined
    end.
Proof.
  unfold _getInitialValueForKey. destruct (initialValue this); reflexivity.
Qed.

(** C4, as amended: when the inherited initial value for the supplied data
    is the empty object (what an [ObjectField] with default options answers)
    and [__proto__] is not a seed key, [getInitialValue] returns a mapping
    whose key set is exactly the seed-key set K; each value is the answer of
    the per-key function [initialValue] when one is configured and answers
    neither [null] nor [undefined], and the contained field's own initial
    value otherwise. *)
Theorem getInitialValue_seeded (this : MappingField.t) (data : value) :
  super_getInitialValue this data = VObject ∅ →
  "__proto__" ∉ seed_keys this →
  ∃ obj : gmap string value,
    getInitialValue this data = Ok (VObject obj)
    ∧ dom obj = seed_keys this
    ∧ (∀ key, key ∈ seed_keys this →
         obj !! key
         = Some match initialValue this with
                | Some build =>
                    coalesce (build key (df_getInitialValue (model this) VUndefined) VUndefined)
                             (df_getInitialValue (model this) VUndefined)
                | None => df_getInitialValue (model this) VUndefined
                end)
    ∧ (initialValue this = None →
       ∀ key v, obj !! key = Some v → v = df_getInitialValue (model this) VUndefined).
Proof.
  intros Hsuper Hproto.
  destruct (getInitialValue_seeds this data Hsuper) as (keys & -> & Hkeys).
  rewrite <- Hkeys, elem_of_list_to_set in Hproto. rewrite seed_object by done.
  eexists. split; [reflexivity |].
  assert (Hdom : dom (foldl (fun obj key =>
                   <[key := _getInitialValueForKey this key VUndefined]> obj)
                   (∅ : gmap string value) keys) = seed_keys this).
  { by rewrite foldl_insert_dom, dom_empty_L, (left_id_L ∅ (∪)). }
  split; [exact Hdom |].
  assert (Hlook : ∀ key v,
             foldl (fun obj key => <[key := _getInitialValueForKey this key VUndefined]> obj)
                   (∅ : gmap string value) keys !! key = Some v →
             v = _getInitialValueForKey this key VUndefined).
  { intros key v Hv. rewrite foldl_insert_lookup in Hv.
    case_bool_decide; [by simplify_eq | by rewrite lookup_empty in Hv]. }
  split.
  - intros key Hkey. rewrite <- Hdom in Hkey.
    apply elem_of_dom in Hkey as [v Hv]. rewrite Hv.
    rewrite (Hlook key v Hv). by rewrite getInitialValueForKey_unfold.
  - intros Hnone key v Hv. rewrite (Hlook key v Hv).
    by rewrite getInitialValueForKey_unfold, Hnone.
Qed.

Lemma getInitialValue_seeded_witness :
  ∃ obj : gmap string value,
    getInitialValue (seeded_field ["hit"; "miss"] false) VUndefined = Ok (VObject obj)
    ∧ dom obj = {["hit"; "miss"]}.
Proof.
  destruct (getInitialValue_seeded (seeded_field ["hit"; "miss"] false) VUndefined eq_refl)
    as (obj & Hrun & Hdom & _).
  - cbn [seeded_field seed_keys initialKeys].
    rewrite elem_of_list_to_set. intros Hin.
    repeat (apply elem_of_cons in Hin as [Hin | Hin]; [discriminate Hin |]).
    by apply elem_of_nil in Hin.
  - exists obj. split; [exact Hrun |].
    rewrite Hdom. cbn. set_solver.
Defined.

(** C4, counterexample: with a per-key function configured, the record
    seeded for key [a] on absent data is the function's answer and not the
    contained field's own initial value. *)
Lemma getInitialValue_uses_builder :
  getInitialValue keyed_field VUndefined = Ok (VObject {["a" := VString "a"]})
  ∧ df_getInitialValue (model keyed_field) VUndefined = VString ""
  ∧ VString "a" ≠ VString "".
Proof.
  split; [vm_compute; reflexivity |]. split; [reflexivity | discriminate].
Qed.

(** ** Validation *)

Section ErrorFold.

Context (g : value → option jserror).



End ErrorFold.






(** ** Cleaning *)

Lemma cleanType_object (this : MappingField.t) (o : gmap string value) (options : value) :
  _cleanType this (VObject o) options
  = Ok (VObject ((fun v => df_clean (model this) v options) <$> o)).
Proof.
  unfold _cleanType, Object_entries.
  assert (Hrun : ∀ (l : list (string * value)) (m : gmap string value),
             (∀ kv, kv ∈ l → is_Some (m !! kv.1)) →
             foldl (fun acc kv =>
                      val ← acc; set_prop val kv.1 (df_clean (model this) kv.2 options))
                   (Ok (VObject m)) l
             = Ok (VObject
                     (foldl (fun acc kv =>
                               match Some (df_clean (model this) kv.2 options) with
                               | Some b => <[kv.1 := b]> acc
                               | None => acc
                               end) m l))).
  { induction l as [|kv l IH]; intros m Hown; [done |].
    cbn [foldl mbind result_bind set_prop].
    rewrite put_own by (apply Hown, list_elem_of_here).
    apply IH. intros kv' Hin. apply lookup_insert_is_Some.
    destruct (decide (kv.1 = kv'.1)); [by left | right].
    split; [done |]. by apply Hown, list_elem_of_further. }
  rewrite Hrun.
  - do 2 f_equal. apply map_eq; intros k.
    rewrite (foldl_entries_lookup (fun v => Some (df_clean (model this) v options)))
      by apply NoDup_fst_map_to_list.
    rewrite list_to_map_to_list, lookup_fmap.
    by destruct (o !! k).
  - intros [k v] Hin. apply elem_of_map_to_list in Hin. by eexists.
Qed.

(** C6, as amended: cleaning is idempotent on a keyed collection when the
    contained field's own [clean] is idempotent on its entries: cleaning the
    cleaned collection then succeeds and yields the cleaned collection
    again. *)
Theorem cleanType_idempotent (this : MappingField.t) (o : gmap string value) (options : value) :
  (∀ k v, o !! k = Some v →
     df_clean (model this) (df_clean (model this) v options) options
     = df_clean (model this) v options) →
  ∃ cleaned : value,
    _cleanType this (VObject o) options = Ok cleaned
    ∧ _cleanType this cleaned options = Ok cleaned.
Proof.
  intros Hidem. eexists. split; [apply cleanType_object |].
  rewrite cleanType_object. do 2 f_equal.
  rewrite <- map_fmap_compose. apply map_fmap_ext. intros k v Hk. cbn. by eapply Hidem.
Qed.

Lemma cleanType_idempotent_witness :
  ∃ cleaned : value,
    _cleanType (seeded_field [] false)
      (VObject {["hit" := VString " On a hit "; "miss" := VNull]}) VUndefined = Ok cleaned
    ∧ _cleanType (seeded_field [] false) cleaned VUndefined = Ok cleaned.
Proof.
  apply (cleanType_idempotent (seeded_field [] false)
           {["hit" := VString " On a hit "; "miss" := VNull]} VUndefined).
  intros k v Hk.
  destruct (decide (k = "hit")) as [-> | Hhit].
  - rewrite lookup_insert_eq in Hk. injection Hk as <-. reflexivity.
  - rewrite lookup_insert_ne in Hk by done.
    destruct (decide (k = "miss")) as [-> | Hmiss].
    + rewrite lookup_singleton_eq in Hk. injection Hk as <-. reflexivity.
    + rewrite lookup_singleton_ne in Hk by done. discriminate Hk.
Defined.

(** C6, counterexample: over a contained field whose [clean] marks a text
    each time it passes, cleaning the cleaned collection does not yield the
    cleaned collection. *)
Lemma cleanType_not_idempotent :
  _cleanType marking_field (VObject {["a" := VString "a"]}) VUndefined
  = Ok (VObject {["a" := VString "a!"]})
  ∧ _cleanType marking_field (VObject {["a" := VString "a!"]}) VUndefined
    = Ok (VObject {["a" := VString "a!!"]})
  ∧ VString "a!" ≠ VString "a!!".
Proof.
  split; [vm_compute; reflexivity |]. split; [vm_compute; reflexivity | discriminate].
Qed.

(** The hypothesis is what the statement rests on: a collection whose
    cleaning is idempotent has entries on which the contained field's
    [clean] is. *)
Lemma cleanType_idempotent_only_if (this : MappingField.t) (o : gmap string value)
    (options cleaned : value) :
  _cleanType this (VObject o) options = Ok cleaned →
  _cleanType this cleaned options = Ok cleaned →
  ∀ k v, o !! k = Some v →
    df_clean (model this) (df_clean (model this) v options) options
    = df_clean (model this) v options.
Proof.
  rewrite cleanType_object. intros [= <-]. rewrite cleanType_object.
  intros Heq k v Hk.
  assert (Hprops : ∀ a b : value, Ok a = Ok b → props a = props b) by (by intros a b [= ->]).
  apply Hprops in Heq. cbn [props] in Heq.
  apply (f_equal (lookup k)) in Heq.
  rewrite !lookup_fmap, Hk in Heq. cbn in Heq. congruence.
Qed.

(** ** Construction *)

(** C9: a constructor argument that is not an instance of [DataField] makes
    the constructor throw at once: the object under construction is left as
    it was, without options and without a contained field, and [new] ends in
    the error. *)
Theorem constructor_rejects_non_DataField (v : value) (opts : options) :
  ∃ e : jserror,
    constructor (NotDataField v) opts blank = (blank, Throw e)
    ∧ e = Error "MappingField must have a DataField as its contained element"
    ∧ (∀ this : under_construction,
         (constructor (NotDataField v) opts this).1 = this)
    ∧ new (NotDataField v) opts = Throw e.
Proof.
  eexists. split; [reflexivity |]. split; [reflexivity |]. split.
  - intros this. reflexivity.
  - reflexivity.
Qed.

Lemma constructor_accepts_DataField (m : DataField) (opts : options) :
  constructor (IsDataField m) opts blank
  = ({| uc_options := Some opts; uc_model := Some m |}, Ok ())
  ∧ ∃ field : MappingField.t, new (IsDataField m) opts = Ok field ∧ model field = m.
Proof.
  split; [reflexivity |]. eexists. split; reflexivity.
Qed.

(** * Properties of the playbook registry *)

Lemma findIndex_from_range {A} (p : A → bool) (l : list A) (i : Z) :
  findIndex_from p l i = -1 ∨ (i ≤ findIndex_from p l i < i + Z.of_nat (length l))%Z.
Proof.
  revert i. induction l as [|x l IH]; intros i; cbn [findIndex_from length]; [by left |].
  destruct (p x); [right; lia |].
  destruct (IH (i + 1)%Z) as [-> | Hrange]; [by left | right; lia].
Qed.

Lemma findIndex_from_none {A} (p : A → bool) (l : list A) (i : Z) :
  (∀ x, x ∈ l → p x = false) → findIndex_from p l i = -1.
Proof.
  revert i. induction l as [|x l IH]; intros i Hnone; [done |].
  cbn [findIndex_from]. rewrite (Hnone x) by (by left).
  apply IH. intros y Hy. apply Hnone. by right.
Qed.

Lemma findIndex_from_found {A} (p : A → bool) (l : list A) (i : Z) :
  (0 ≤ i)%Z → (∃ x, x ∈ l ∧ p x = true) →
  ∃ n x, findIndex_from p l i = (i + Z.of_nat n)%Z ∧ l !! n = Some x ∧ p x = true.
Proof.
  revert i. induction l as [|y l IH]; intros i Hi (x & Hx & Hp).
  - by apply elem_of_nil in Hx.
  - cbn [findIndex_from]. destruct (p y) eqn:Hy.
    + exists 0%nat, y. split; [lia | done].
    + apply elem_of_cons in Hx as [-> | Hx]; [congruence |].
      destruct (IH (i + 1)%Z) as (n & z & Hn & Hz & Hpz); [lia | by eauto |].
      exists (S n), z. split; [lia | done].
Qed.

(** An update that finds no entry with the item's identifier leaves the
    elements and the length of the registry as they are, and defines the
    property [-1] on it. *)
Lemma onUpdate_unmatched (this : Item) (playbooks : registry) :
  type this = "playbook" →
  (∀ p, p ∈ elems playbooks → pb_uuid p ≠ uuid this) →
  _onUpdate this playbooks
  = {| elems := elems playbooks; named := <["-1" := entry_of this]> (named playbooks) |}.
Proof.
  intros Htype Hnone. unfold _onUpdate, findIndex. rewrite Htype. cbn [String.eqb].
  change (String.eqb "playbook" "playbook") with true. cbn match.
  rewrite findIndex_from_none; [reflexivity |].
  intros p Hp. apply String.eqb_neq. by apply Hnone.
Qed.

(** C1, at the failing input: the registry lists one playbook, and a
    playbook with another identifier is updated.  [findIndex] answers -1 and
    the assignment defines the property [-1] on the registry: its elements
    are the same, the registry is not. *)
Theorem onUpdate_unmatched_defines_property :
  findIndex (fun p => String.eqb (pb_uuid p) (uuid the_stray)) one_playbook = -1
  ∧ _onUpdate the_stray one_playbook
    = {| elems := [entry_of the_listed]; named := {["-1" := entry_of the_stray]} |}
  ∧ named (_onUpdate the_stray one_playbook) !! "-1" = Some (entry_of the_stray)
  ∧ named one_playbook !! "-1" = None
  ∧ _onUpdate the_stray one_playbook ≠ one_playbook.
Proof.
  split; [reflexivity |]. split; [vm_compute; reflexivity |].
  split; [vm_compute; reflexivity |]. split; [reflexivity |].
  intros H. apply (f_equal (fun r => named r !! "-1")) in H.
  vm_compute in H. discriminate H.
Qed.

Lemma filter_insert_rejected {A} (p : A → bool) (l : list A) (n : nat) (x y : A) :
  l !! n = Some x → p x = false → p y = false →
  List.filter p (<[n := y]> l) = List.filter p l.
Proof.
  revert n. induction l as [|z l IH]; intros n Hn Hx Hy; [done |].
  destruct n as [|n]; cbn in Hn.
  - injection Hn as ->.
    change (<[0%nat := y]> (x :: l)) with (y :: l).
    cbn [List.filter]. by rewrite Hx, Hy.
  - change (<[S n := y]> (z :: l)) with (z :: <[n := y]> l).
    cbn [List.filter]. by rewrite (IH n Hn Hx Hy).
Qed.

Lemma filter_app_rejected {A} (p : A → bool) (l : list A) (x : A) :
  p x = false → List.filter p (l ++ [x]) = List.filter p l.
Proof.
  intros Hx. rewrite List.filter_app. cbn. rewrite Hx. apply app_nil_r.
Qed.

(** C7: after create, update and delete of one playbook document (the three
    hooks see the same identifier; the other fields may have changed in
    between), no entry of the registry has that identifier: the registry is
    the array of the entries it had before under other identifiers, in their
    order, and carries no other property. *)
Theorem create_update_delete_leaves_no_entry
    (created updated deleted : Item) (playbooks : registry) :
  type created = "playbook" → type updated = "playbook" → type deleted = "playbook" →
  uuid updated = uuid created → uuid deleted = uuid created →
  (∀ p, p ∈ elems (_onDelete deleted (_onUpdate updated (_onCreate created playbooks))) →
        pb_uuid p ≠ uuid created)
  ∧ named (_onDelete deleted (_onUpdate updated (_onCreate created playbooks))) = ∅
  ∧ elems (_onDelete deleted (_onUpdate updated (_onCreate created playbooks)))
    = List.filter (fun p => negb (String.eqb (pb_uuid p) (uuid created))) (elems playbooks).
Proof.
  intros Hc Hu Hd Huu Hdu.
  assert (Hrun : _onDelete deleted (_onUpdate updated (_onCreate created playbooks))
                 = {| elems := List.filter (fun p => negb (String.eqb (pb_uuid p) (uuid created)))
                                           (elems playbooks);
                      named := ∅ |}).
  { unfold _onDelete, _onUpdate, _onCreate. rewrite Hc, Hu, Hd, Huu, Hdu.
    change (String.eqb "playbook" "playbook") with true. cbn match.
    unfold filter_array, findIndex, push. cbn [elems named]. f_equal.
    destruct (findIndex_from_found
                (fun p => String.eqb (pb_uuid p) (uuid created))
                (elems playbooks ++ [entry_of created]) 0)
      as (n & x & -> & Hn & Hx).
    - lia.
    - exists (entry_of created). split; [apply elem_of_app; right; by left |].
      apply String.eqb_refl.
    - unfold assign. destruct (Z.ltb_spec (0 + Z.of_nat n) 0) as [Hneg | _]; [lia |].
      cbn [elems]. rewrite Z.add_0_l, Nat2Z.id.
      rewrite (filter_insert_rejected _ _ n x (entry_of updated) Hn).
      + apply filter_app_rejected. cbn. by rewrite String.eqb_refl.
      + by rewrite Hx.
      + cbn. by rewrite Huu, String.eqb_refl. }
  rewrite Hrun. cbn [elems named]. split; [| done].
  intros p Hp Heq. apply list_elem_of_In, List.filter_In in Hp as [_ Hp].
  rewrite Heq, String.eqb_refl in Hp. discriminate Hp.
Qed.

Lemma create_update_delete_witness :
  elems (_onDelete (playbook_item "The Stray, renamed" "Item.stray")
           (_onUpdate (playbook_item "The Stray, renamed" "Item.stray")
              (_onCreate the_stray one_playbook)))
  = [entry_of the_listed].
Proof.
  destruct (create_update_delete_leaves_no_entry
              the_stray (playbook_item "The Stray, renamed" "Item.stray")
              (playbook_item "The Stray, renamed" "Item.stray") one_playbook
              eq_refl eq_refl eq_refl eq_refl eq_refl) as (_ & _ & ->).
  reflexivity.
Defined.

(** * Roll formula *)

Lemma getRollFormula_falls_through (host : Host) (this : Item) (defaultFormula : string) :
  no_valid_override host this →
  getRollFormula host this defaultFormula
  = match actor this ≫= (fun a => actor_getRollFormula a defaultFormula) with
    | Some formula => formula
    | None =>
        match sheetConfig_rollFormula host with
        | Some formula => formula
        | None => defaultFormula
        end
    end.
Proof.
  intros Hno. unfold getRollFormula.
  case_bool_decide; [| reflexivity].
  destruct Hno as [-> | [-> | (formula & -> & Hinvalid)]]; [reflexivity | reflexivity |].
  rewrite Hinvalid, andb_false_r. reflexivity.
Qed.

(** With another [rollType] the override is not looked at. *)
Lemma getRollFormula_other_rollType (host : Host) (this : Item) (defaultFormula : string) :
  rollType (system this) ≠ Some "formula" →
  getRollFormula host this defaultFormula
  = match actor this ≫= (fun a => actor_getRollFormula a defaultFormula) with
    | Some formula => formula
    | None =>
        match sheetConfig_rollFormula host with
        | Some formula => formula
        | None => defaultFormula
        end
    end.
Proof.
  intros Hother. unfold getRollFormula. by rewrite bool_decide_eq_false_2.
Qed.

(** C2, as amended: with [rollType] "formula" and an override that is not
    empty and that [Roll.validate] accepts, [getRollFormula] answers that
    override, trimmed.  With an override that is unset, empty or rejected,
    it falls through the rest of the chain, which has no stat step: the
    formula of the owning actor when there is one and it answers, else the
    formula of the system configuration when there is one, else the default
    formula. *)
Theorem getRollFormula_precedence (host : Host) (this : Item) (defaultFormula : string) :
  (∀ formula,
     rollType (system this) = Some "formula" →
     rollFormula (system this) = Some formula →
     formula ≠ "" →
     Roll_validate host formula = true →
     getRollFormula host this defaultFormula = Str.trim formula)
  ∧ (no_valid_override host this →
     (∀ a formula,
        actor this = Some a → actor_getRollFormula a defaultFormula = Some formula →
        getRollFormula host this defaultFormula = formula)
     ∧ (∀ formula,
          actor this ≫= (fun a => actor_getRollFormula a defaultFormula) = None →
          sheetConfig_rollFormula host = Some formula →
          getRollFormula host this defaultFormula = formula)
     ∧ (actor this ≫= (fun a => actor_getRollFormula a defaultFormula) = None →
        sheetConfig_rollFormula host = None →
        getRollFormula host this defaultFormula = defaultFormula)).
Proof.
  split.
  - intros formula Htype Hformula Hne Hvalid. unfold getRollFormula.
    rewrite bool_decide_eq_true_2 by done. rewrite Hformula, Hvalid.
    apply String.eqb_neq in Hne. rewrite Hne. reflexivity.
  - intros Hno. rewrite (getRollFormula_falls_through host this defaultFormula Hno).
    split; [| split].
    + intros a formula -> Ha. cbn. by rewrite Ha.
    + intros formula -> ->. reflexivity.
    + intros -> ->. reflexivity.
Qed.

Lemma getRollFormula_precedence_witness :
  getRollFormula sample_host (move_item (Some "formula") (Some " 3d6 ") None) "2d6" = "3d6"
  ∧ getRollFormula sample_host (move_item (Some "formula") (Some "dice") None) "2d6" = "2d6".
Proof.
  split.
  - apply (proj1 (getRollFormula_precedence sample_host
                    (move_item (Some "formula") (Some " 3d6 ") None) "2d6") " 3d6 ");
      [reflexivity | reflexivity | discriminate | reflexivity].
  - apply (proj2 (getRollFormula_precedence sample_host
                    (move_item (Some "formula") (Some "dice") None) "2d6")).
    + right. right. exists "dice". split; reflexivity.
    + reflexivity.
    + reflexivity.
Defined.

(** C2, counterexample: a move that rolls the stat "cool" and has no
    override, no actor formula and no configured formula gets the default
    formula from [getRollFormula], not a formula on its stat; the stat term
    is what [roll] writes around [@formula]. *)
Lemma getRollFormula_has_no_stat_step :
  rollType (system (move_item (Some "cool") None None)) = Some "cool"
  ∧ rollFormula (system (move_item (Some "cool") None None)) = None
  ∧ getRollFormula sample_host (move_item (Some "cool") None None) "2d6" = "2d6"
  ∧ Roll.roll stat_roll
    = Ok (Roll.Rolls (Some "@formula+ @stats.cool.value+ 1 + @rollMod") "cool" "cool")
  ∧ "2d6" ≠ "@formula+ @stats.cool.value+ 1 + @rollMod".
Proof.
  split; [reflexivity |]. split; [reflexivity |]. split; [reflexivity |].
  split; [vm_compute; reflexivity | discriminate].
Qed.

(** * Chat card shift *)

(** On modifiers of one digit, and on a formula without modifier, the shift
    moves the total and the modifier by one. *)
Example shift_one_digit :
  _onChatCardAction sample_host "shiftUp" (dice_card "2d6 + 1" "8")
  = Patched (dice_card "2d6 + 2" "9")
  ∧ _onChatCardAction sample_host "shiftDown" (dice_card "2d6 + 1" "8")
    = Patched (dice_card "2d6 + 0" "7")
  ∧ _onChatCardAction sample_host "shiftDown" (dice_card "2d6 - 1" "-1")
    = Patched (dice_card "2d6 - 2" "-2")
  ∧ _onChatCardAction sample_host "shiftUp" (dice_card "2d6" "7")
    = Patched (dice_card "2d6 + 1" "8")
  ∧ _onChatCardAction sample_host "shiftDown" (dice_card "2d6" "7")
    = Patched (dice_card "2d6 - 1" "6").
Proof. repeat split; vm_compute; reflexivity. Qed.

(** C10, at the failing input: the formula [2d6 + 10] with total 17 is
    shifted up.  [plusMinusReg] takes the sign and the first digit only, so
    the expression evaluated is [+ 1 + 1]; the value written is 2 and the
    digit left behind follows it.  With a host that evaluates the two sums,
    the total goes from 17 to 18 and the modifier from 10 to 20. *)
Theorem shiftUp_two_digit_modifier (host : Host) :
  Roll_safeEval host "+ 1 + 1" = Some 2 →
  Roll_safeEval host "17 + 1" = Some 18 →
  match_plusMinus "2d6 + 10" = Some ("2d6 ", "+ 1", "0")
  ∧ _onChatCardAction host "shiftUp" (dice_card "2d6 + 10" "17")
    = Patched (dice_card "2d6 + 20" "18")
  ∧ displayed_total (dice_card "2d6 + 10" "17") = Some "17"
  ∧ displayed_total (dice_card "2d6 + 20" "18") = Some "18"
  ∧ displayed_formula (dice_card "2d6 + 10" "17") = Some "2d6 + 10"
  ∧ displayed_formula (dice_card "2d6 + 20" "18") = Some "2d6 + 20".
Proof.
  intros Hvalue Htotal.
  split; [vm_compute; reflexivity |].
  split; [| repeat split; vm_compute; reflexivity].
  destruct host as [validate safeEval config]. cbn [Roll_safeEval] in Hvalue, Htotal.
  unfold _onChatCardAction. cbn [Roll_safeEval].
  replace (match_block dice_formula_open div_close (dice_card "2d6 + 10" "17"))
    with (Some ("<div class=" +:+ quote +:+ "dice-result" +:+ quote +:+ ">" +:+ newline,
                "2d6 + 10",
                newline +:+ dice_total_open +:+ "17" +:+ h4_close +:+ newline +:+ "</div>"))
    by (vm_compute; reflexivity).
  replace (match_plusMinus "2d6 + 10") with (Some ("2d6 ", "+ 1", "0"))
    by (vm_compute; reflexivity).
  change ("+ 1" +:+ " + " +:+ show_Z (if String.eqb "shiftUp" "shiftUp" then 1 else -1))
    with "+ 1 + 1".
  rewrite Hvalue.
  replace (Str.replace_string (dice_card "2d6 + 10" "17") "2d6 + 10"
             (replace_plusMinus "2d6 + 10" (updatedValue_of 2)))
    with (dice_card "2d6 + 20" "17") by (vm_compute; reflexivity).
  replace (match_block dice_total_open h4_close (dice_card "2d6 + 20" "17"))
    with (Some ("<div class=" +:+ quote +:+ "dice-result" +:+ quote +:+ ">" +:+ newline
                +:+ dice_formula_open +:+ "2d6 + 20" +:+ div_close +:+ newline,
                "17",
                newline +:+ "</div>"))
    by (vm_compute; reflexivity).
  change ("17" +:+ " + " +:+ show_Z (if String.eqb "shiftUp" "shiftUp" then 1 else -1))
    with "17 + 1".
  rewrite Htotal.
  vm_compute. reflexivity.
Qed.

Lemma shiftUp_two_digit_modifier_witness :
  _onChatCardAction sample_host "shiftUp" (dice_card "2d6 + 10" "17")
  = Patched (dice_card "2d6 + 20" "18").
Proof.
  apply (shiftUp_two_digit_modifier sample_host); vm_compute; reflexivity.
Defined.

(** ** The modifier that the shift rewrites *)

Section PlusMinus.

Import Str.

Lemma span_white_space (ws rest : string) (d : ascii) :
  string_forall is_white_space ws = true →
  is_white_space d = false →
  span is_white_space (ws +:+ String d rest) = (ws, String d rest).
Proof.
  intros Hws Hd. induction ws as [|c ws IH].
  - change (EmptyString +:+ String d rest) with (String d rest).
    cbn [span]. by rewrite Hd.
  - change (String c ws +:+ String d rest) with (String c (ws +:+ String d rest)).
    cbn [string_forall] in Hws. apply andb_true_iff in Hws as [Hc Hws].
    cbn [span]. by rewrite Hc, (IH Hws).
Qed.

Lemma digit_not_white_space (d : ascii) :
  is_digit d = true → is_white_space d = false.
Proof.
  destruct d as [[] [] [] [] [] [] [] []]; cbn; intros H; (discriminate H || reflexivity).
Qed.

Lemma plusMinus_here_sign (c d : ascii) (ws rest : string) :
  is_sign c = true →
  string_forall is_white_space ws = true →
  is_digit d = true →
  plusMinus_here (String c (ws +:+ String d rest))
  = Some (String c (ws +:+ String d EmptyString), rest).
Proof.
  intros Hc Hws Hd. unfold plusMinus_here. rewrite Hc.
  rewrite (span_white_space ws rest d Hws (digit_not_white_space d Hd)).
  by rewrite Hd.
Qed.

Lemma match_plusMinus_after (base s matched after : string) :
  string_forall (fun c => negb (is_sign c)) base = true →
  plusMinus_here s = Some (matched, after) →
  match_plusMinus (base +:+ s) = Some (base, matched, after).
Proof.
  intros Hbase Hhere. induction base as [|c base IH].
  - change (EmptyString +:+ s) with s.
    destruct s; cbn [match_plusMinus]; by rewrite Hhere.
  - cbn in Hbase. apply andb_true_iff in Hbase as [Hc Hbase].
    apply negb_true_iff in Hc.
    change (String c base +:+ s) with (String c (base +:+ s)).
    cbn [match_plusMinus]. unfold plusMinus_here at 1. rewrite Hc.
    by rewrite (IH Hbase).
Qed.

(** A replacement text without dollar sign stands for itself. *)
Lemma expand_plain (captures : list string) (matched before after repl : string) :
  string_forall (fun c => negb (Ascii.eqb c "$")) repl = true →
  expand captures matched before after repl = repl.
Proof.
  induction repl as [|c repl IH]; intros Hplain; [reflexivity |].
  cbn in Hplain. apply andb_true_iff in Hplain as [Hc Hplain].
  specialize (IH Hplain).
  destruct c as [[] [] [] [] [] [] [] []]; try discriminate Hc;
    cbn [expand]; by rewrite IH.
Qed.

Lemma string_forall_app (p : ascii → bool) (s1 s2 : string) :
  string_forall p (s1 +:+ s2) = (string_forall p s1 && string_forall p s2)%bool.
Proof.
  induction s1 as [|c s1 IH]; [reflexivity |].
  change (String c s1 +:+ s2) with (String c (s1 +:+ s2)).
  cbn. by rewrite IH, andb_assoc.
Qed.

Lemma string_of_uint_plain (d : Decimal.uint) :
  string_forall (fun c => negb (Ascii.eqb c "$")) (NilEmpty.string_of_uint d) = true.
Proof.
  induction d; cbn; done.
Qed.

Lemma show_Z_plain (n : Z) :
  string_forall (fun c => negb (Ascii.eqb c "$")) (show_Z n) = true.
Proof.
  unfold show_Z. destruct (Z.to_int n) as [d | d]; cbn; apply string_of_uint_plain.
Qed.

End PlusMinus.

(** In a formula that holds no sign before its modifier, [plusMinusReg]
    matches the sign of the modifier and its first digit, and the
    replacement rewrites those: whatever follows the first digit, further
    digits of the modifier included, stays behind the new value. *)
Lemma replace_plusMinus_first_digit (base ws rest : string) (c d : ascii) (newValue : Z) :
  Str.string_forall (fun c => negb (is_sign c)) base = true →
  is_sign c = true →
  Str.string_forall Str.is_white_space ws = true →
  Str.is_digit d = true →
  match_plusMinus (base +:+ String c (ws +:+ String d rest))
  = Some (base, String c (ws +:+ String d EmptyString), rest)
  ∧ replace_plusMinus (base +:+ String c (ws +:+ String d rest)) (updatedValue_of newValue)
    = base +:+ updatedValue_of newValue +:+ rest.
Proof.
  intros Hbase Hc Hws Hd.
  assert (Hmatch : match_plusMinus (base +:+ String c (ws +:+ String d rest))
                   = Some (base, String c (ws +:+ String d EmptyString), rest)).
  { apply match_plusMinus_after; [done |]. by apply plusMinus_here_sign. }
  split; [exact Hmatch |].
  unfold replace_plusMinus. rewrite Hmatch. rewrite expand_plain; [reflexivity |].
  unfold updatedValue_of. destruct (0 <=? newValue)%Z;
    rewrite string_forall_app, show_Z_plain; reflexivity.
Qed.

Lemma replace_plusMinus_first_digit_witness :
  replace_plusMinus "2d6 + 10" "+ 2" = "2d6 + 20".
Proof.
  exact (proj2 (replace_plusMinus_first_digit "2d6 " " " "0" "+" "1" 2
                  eq_refl eq_refl eq_refl eq_refl)).
Defined.

(** * Further properties *)

(** A raw value that is not an object fails validation before any entry is
    looked at. *)
Lemma validateType_not_object (this : MappingField.t) (val options : value) :
  (∀ o, val ≠ VObject o) →
  (∀ proto o, val ≠ VObjectOver proto o) →
  (∀ owner, val ≠ VBuiltin (Prototype owner)) →
  _validateType this val options = Throw (Error "must be an Object").
Proof.
  intros Hnot Hover Hproto. destruct val as [| | | | | | o | proto o | [owner | owner name]];
    try reflexivity.
  - by destruct (Hnot o).
  - by destruct (Hover proto o).
  - by destruct (Hproto owner).
Qed.

Lemma validateType_not_object_witness :
  _validateType (seeded_field [] false) (VString "moves") VUndefined
  = Throw (Error "must be an Object").
Proof.
  apply (validateType_not_object (seeded_field [] false) (VString "moves") VUndefined).
  - intros o. discriminate.
  - intros proto o. discriminate.
  - intros owner. discriminate.
Defined.

Lemma onUpdate_unmatched_witness :
  _onUpdate the_stray one_playbook
  = {| elems := elems one_playbook;
       named := <["-1" := entry_of the_stray]> (named one_playbook) |}.
Proof.
  apply (onUpdate_unmatched the_stray one_playbook).
  - reflexivity.
  - intros p Hp. apply list_elem_of_singleton in Hp as ->. discriminate.
Defined.

Lemma cleanType_idempotent_only_if_witness :
  df_clean string_field (df_clean string_field (VString " On a hit ") VUndefined) VUndefined
  = df_clean string_field (VString " On a hit ") VUndefined.
Proof.
  apply (cleanType_idempotent_only_if (seeded_field [] false)
           {["hit" := VString " On a hit "]} VUndefined
           (VObject {["hit" := VString "On a hit"]})) with (k := "hit").
  - vm_compute. reflexivity.
  - vm_compute. reflexivity.
  - reflexivity.
Defined.

(** * The registry under the three hooks *)

(** What [findIndex] answers: -1 when no element satisfies the test, and
    otherwise the index of the first element that does. *)
Lemma findIndex_from_first {A} (p : A → bool) (l : list A) (i : Z) :
  (findIndex_from p l i = -1 ∧ ∀ x, x ∈ l → p x = false)
  ∨ ∃ (n : nat) (x : A),
      findIndex_from p l i = (i + Z.of_nat n)%Z
      ∧ l !! n = Some x ∧ p x = true
      ∧ List.find p l = Some x.
Proof.
  revert i. induction l as [|y l IH]; intros i.
  - left. split; [done |]. intros x Hx. by apply elem_of_nil in Hx.
  - cbn [findIndex_from List.find]. destruct (p y) eqn:Hy.
    + right. exists 0%nat, y. split; [lia | done].
    + destruct (IH (i + 1)%Z) as [[Hnone Hall] | (n & x & Hn & Hx & Hpx & Hfind)].
      * left. split; [done |]. intros x Hx.
        apply elem_of_cons in Hx as [-> | Hx]; [done | by apply Hall].
      * right. exists (S n), x. split; [lia | done].
Qed.

Lemma find_none_iff {A} (p : A → bool) (l : list A) :
  List.find p l = None ↔ ∀ x, x ∈ l → p x = false.
Proof.
  induction l as [|y l IH]; cbn [List.find].
  - split; [| done]. intros _ x Hx. by apply elem_of_nil in Hx.
  - destruct (p y) eqn:Hy.
    + split; [done |]. intros Hall. rewrite (Hall y) in Hy by (by left). done.
    + rewrite IH. split.
      * intros Hall x Hx. apply elem_of_cons in Hx as [-> | Hx]; [done | by apply Hall].
      * intros Hall x Hx. apply Hall. by right.
Qed.

Lemma find_insert_first {A} (p : A → bool) (l : list A) (n : nat) (x y : A) :
  l !! n = Some x → List.find p l = Some x → p x = true → p y = true →
  (∀ m z, (m < n)%nat → l !! m = Some z → p z = false) →
  List.find p (<[n := y]> l) = Some y.
Proof.
  revert n. induction l as [|z l IH]; intros n Hn Hfind Hx Hy Hbefore; [done |].
  destruct n as [|n].
  - change (<[0%nat := y]> (z :: l)) with (y :: l). cbn [List.find]. by rewrite Hy.
  - change (<[S n := y]> (z :: l)) with (z :: <[n := y]> l).
    cbn [List.find] in *. rewrite (Hbefore 0%nat z) in * by (done || lia).
    apply (IH n); [done | done | done | done |].
    intros m w Hm Hw. apply (Hbefore (S m) w); [lia | done].
Qed.

Lemma findIndex_from_before {A} (p : A → bool) (l : list A) (i : Z) (n : nat) :
  findIndex_from p l i = (i + Z.of_nat n)%Z →
  ∀ m z, (m < n)%nat → l !! m = Some z → p z = false.
Proof.
  revert i n. induction l as [|y l IH]; intros i n Hidx m z Hm Hz; [done |].
  cbn [findIndex_from] in Hidx. destruct (p y) eqn:Hy.
  - lia.
  - destruct m as [|m]; [by injection Hz as <- |].
    destruct n as [|n]; [lia |].
    apply (IH (i + 1)%Z n) with (m := m); [| lia | done].
    rewrite Hidx. lia.
Qed.

Lemma onUpdate_elems (this : Item) (playbooks : registry) :
  (elems (_onUpdate this playbooks) = elems playbooks
   ∧ (type this ≠ "playbook" ∨ lookup_uuid (uuid this) playbooks = None))
  ∨ ∃ (n : nat) (old : PlaybookEntry),
      type this = "playbook"
      ∧ elems playbooks !! n = Some old
      ∧ pb_uuid old = uuid this
      ∧ lookup_uuid (uuid this) playbooks = Some old
      ∧ (∀ m z, (m < n)%nat → elems playbooks !! m = Some z → pb_uuid z ≠ uuid this)
      ∧ elems (_onUpdate this playbooks) = <[n := entry_of this]> (elems playbooks).
Proof.
  unfold _onUpdate, findIndex, lookup_uuid.
  destruct (String.eqb_spec (type this) "playbook") as [Ht | Ht]; [| left; by auto].
  destruct (findIndex_from_first (fun p => String.eqb (pb_uuid p) (uuid this))
              (elems playbooks) 0) as [[-> Hnone] | (n & old & Hidx & Hn & Hold & Hfind)].
  - left. split; [done |]. right. by apply find_none_iff.
  - right. exists n, old. split; [done |]. split; [done |].
    split; [by apply String.eqb_eq |]. split; [done |]. split.
    + intros m z Hm Hz. apply String.eqb_neq.
      by apply (findIndex_from_before _ _ _ _ Hidx m z).
    + rewrite Hidx. unfold assign.
      destruct (Z.ltb_spec (0 + Z.of_nat n) 0) as [Hneg | _]; [lia |].
      cbn [elems]. by rewrite Z.add_0_l, Nat2Z.id.
Qed.

(** An update that finds an entry with the item's identifier replaces the
    first such entry, the one that no entry with that identifier precedes,
    by the item's summary, and leaves the other elements, the length and
    the other properties of the registry alone. *)
Lemma onUpdate_matched (this : Item) (playbooks : registry) :
  type this = "playbook" →
  (∃ p, p ∈ elems playbooks ∧ pb_uuid p = uuid this) →
  ∃ (n : nat) (old : PlaybookEntry),
    elems playbooks !! n = Some old
    ∧ pb_uuid old = uuid this
    ∧ (∀ m z, (m < n)%nat → elems playbooks !! m = Some z → pb_uuid z ≠ uuid this)
    ∧ _onUpdate this playbooks
      = {| elems := <[n := entry_of this]> (elems playbooks); named := named playbooks |}.
Proof.
  intros Htype (p & Hp & Huuid). unfold _onUpdate, findIndex. rewrite Htype.
  change (String.eqb "playbook" "playbook") with true. cbn match.
  destruct (findIndex_from_first (fun p => String.eqb (pb_uuid p) (uuid this))
              (elems playbooks) 0) as [[_ Hnone] | (n & old & Hidx & Hn & Hold & _)].
  - exfalso. specialize (Hnone p Hp). cbn in Hnone. by apply String.eqb_neq in Hnone.
  - exists n, old. split; [done |]. split; [by apply String.eqb_eq |]. split.
    + intros m z Hm Hz. apply String.eqb_neq.
      by apply (findIndex_from_before _ _ _ _ Hidx m z).
    + rewrite Hidx. unfold assign.
      destruct (Z.ltb_spec (0 + Z.of_nat n) 0) as [Hneg | _]; [lia |].
      by rewrite Z.add_0_l, Nat2Z.id.
Qed.

Lemma onUpdate_matched_witness :
  ∃ (n : nat) (old : PlaybookEntry),
    elems two_listed !! n = Some old
    ∧ pb_uuid old = "Item.listed"
    ∧ (∀ m z, (m < n)%nat → elems two_listed !! m = Some z → pb_uuid z ≠ "Item.listed")
    ∧ _onUpdate (playbook_item "The Listed, renamed" "Item.listed") two_listed
      = {| elems := <[n := entry_of (playbook_item "The Listed, renamed" "Item.listed")]>
                      (elems two_listed);
           named := named two_listed |}.
Proof.
  apply (onUpdate_matched (playbook_item "The Listed, renamed" "Item.listed") two_listed).
  - reflexivity.
  - exists (entry_of the_listed). split; [| reflexivity].
    apply list_elem_of_further, list_elem_of_here.
Defined.

(** On a registry that lists the identifier twice, the update replaces the
    entry at the lower index and leaves the other. *)
Example onUpdate_replaces_first :
  elems (_onUpdate (playbook_item "The Listed, renamed" "Item.listed") two_listed)
  = [entry_of the_stray;
     entry_of (playbook_item "The Listed, renamed" "Item.listed");
     entry_of the_listed].
Proof. vm_compute. reflexivity. Qed.

Lemma filter_filter_same {A} (p : A → bool) (l : list A) :
  List.filter p (List.filter p l) = List.filter p l.
Proof.
  induction l as [|x l IH]; [done |]. cbn [List.filter].
  destruct (p x) eqn:Hx; [| done]. cbn [List.filter]. by rewrite Hx, IH.
Qed.

(** Whatever the item, none of the three hooks adds, drops, changes or
    reorders an entry listed under another identifier than the item's. *)
Theorem hooks_keep_other_entries (this : Item) (playbooks : registry) :
  others_of (uuid this) (_onCreate this playbooks) = others_of (uuid this) playbooks
  ∧ others_of (uuid this) (_onUpdate this playbooks) = others_of (uuid this) playbooks
  ∧ others_of (uuid this) (_onDelete this playbooks) = others_of (uuid this) playbooks.
Proof.
  unfold others_of. split; [| split].
  - unfold _onCreate. destruct (String.eqb (type this) "playbook"); [| done].
    cbn [push elems]. apply filter_app_rejected. cbn. by rewrite String.eqb_refl.
  - destruct (onUpdate_elems this playbooks)
      as [[-> _] | (n & old & _ & Hn & Hold & _ & _ & ->)]; [done |].
    apply (filter_insert_rejected _ _ n old); [done | |].
    + by rewrite Hold, String.eqb_refl.
    + cbn. by rewrite String.eqb_refl.
  - unfold _onDelete. destruct (String.eqb (type this) "playbook"); [| done].
    cbn [filter_array elems]. apply filter_filter_same.
Qed.

(** An update never changes which identifiers the registry lists, nor their
    order or number: listed or not, the item is neither added nor removed. *)
Theorem onUpdate_keeps_listed_uuids (this : Item) (playbooks : registry) :
  listed_uuids (_onUpdate this playbooks) = listed_uuids playbooks
  ∧ length (elems (_onUpdate this playbooks)) = length (elems playbooks).
Proof.
  unfold listed_uuids.
  destruct (onUpdate_elems this playbooks)
    as [[-> _] | (n & old & _ & Hn & Hold & _ & _ & ->)]; [done |].
  split; [| apply length_insert].
  rewrite list_fmap_insert. apply list_insert_id.
  rewrite list_lookup_fmap, Hn. cbn. by rewrite Hold.
Qed.

Lemma listed_uuids_filter (u : string) (l : list PlaybookEntry) :
  NoDup (pb_uuid <$> l) →
  NoDup (pb_uuid <$> List.filter (fun p => negb (String.eqb (pb_uuid p) u)) l).
Proof.
  induction l as [|x l IH]; [done |].
  rewrite fmap_cons. intros Hnd.
  pose proof (NoDup_cons_1_1 _ _ Hnd) as Hx. apply NoDup_cons_1_2 in Hnd.
  cbn [List.filter]. destruct (negb (String.eqb (pb_uuid x) u)); [| by apply IH].
  rewrite fmap_cons. apply NoDup_cons_2; [| by apply IH].
  intros Hin. apply Hx.
  apply list_elem_of_fmap in Hin as (y & -> & Hy).
  apply list_elem_of_fmap. exists y. split; [done |].
  apply list_elem_of_In, List.filter_In in Hy as [Hy _]. by apply list_elem_of_In.
Qed.

(** A registry that lists every identifier at most once keeps doing so under
    update and delete, and under the create of an item it does not list. *)
Theorem hooks_keep_uuids_distinct (this : Item) (playbooks : registry) :
  NoDup (listed_uuids playbooks) →
  NoDup (listed_uuids (_onUpdate this playbooks))
  ∧ NoDup (listed_uuids (_onDelete this playbooks))
  ∧ (uuid this ∉ listed_uuids playbooks → NoDup (listed_uuids (_onCreate this playbooks))).
Proof.
  intros Hnd. split; [| split].
  - unfold listed_uuids in *.
    destruct (onUpdate_elems this playbooks)
      as [[-> _] | (n & old & _ & Hn & Hold & _ & _ & ->)]; [done |].
    rewrite list_fmap_insert, list_insert_id; [done |].
    rewrite list_lookup_fmap, Hn. cbn. by rewrite Hold.
  - unfold listed_uuids, _onDelete. destruct (String.eqb (type this) "playbook"); [| done].
    cbn [filter_array elems]. by apply listed_uuids_filter.
  - intros Hfresh. unfold listed_uuids, _onCreate.
    destruct (String.eqb (type this) "playbook"); [| done].
    cbn [push elems]. rewrite fmap_app. apply list.NoDup_app. split; [done |]. split.
    + intros u Hu Hin. apply list_elem_of_singleton in Hin as ->. by apply Hfresh.
    + cbn. apply NoDup_singleton.
Qed.

Lemma hooks_keep_uuids_distinct_witness :
  NoDup (listed_uuids (_onUpdate the_listed (_onCreate the_stray one_playbook))).
Proof.
  apply (hooks_keep_uuids_distinct the_listed (_onCreate the_stray one_playbook)).
  apply (hooks_keep_uuids_distinct the_stray one_playbook).
  - cbn. apply NoDup_singleton.
  - cbn. intros Hin. apply list_elem_of_singleton in Hin. discriminate Hin.
Defined.

(** After the update of a playbook, looking its identifier up answers the
    current summary of the item when the registry listed it, and still
    nothing when it did not: an unlisted playbook stays unlisted. *)
Theorem onUpdate_then_lookup (this : Item) (playbooks : registry) :
  type this = "playbook" →
  (∀ old, lookup_uuid (uuid this) playbooks = Some old →
     lookup_uuid (uuid this) (_onUpdate this playbooks) = Some (entry_of this))
  ∧ (lookup_uuid (uuid this) playbooks = None →
     lookup_uuid (uuid this) (_onUpdate this playbooks) = None).
Proof.
  intros Htype.
  destruct (onUpdate_elems this playbooks)
    as [[Hsame [Hother | Hnone]] | (n & old & _ & Hn & Hold & Hfind & Hbefore & Hnew)].
  - done.
  - unfold lookup_uuid in *. rewrite Hsame. split; [| done].
    intros old Hold. congruence.
  - unfold lookup_uuid in *. rewrite Hnew. split; [| congruence].
    intros _ _. apply (find_insert_first _ _ n old); [done | done | | |].
    + by rewrite Hold, String.eqb_refl.
    + cbn. by rewrite String.eqb_refl.
    + intros m z Hm Hz. apply String.eqb_neq. by apply (Hbefore m z).
Qed.

Lemma onUpdate_then_lookup_witness :
  lookup_uuid "Item.listed"
    (_onUpdate (playbook_item "The Listed, renamed" "Item.listed") one_playbook)
  = Some (entry_of (playbook_item "The Listed, renamed" "Item.listed"))
  ∧ lookup_uuid "Item.stray" (_onUpdate the_stray one_playbook) = None.
Proof.
  split.
  - apply (proj1 (onUpdate_then_lookup
                    (playbook_item "The Listed, renamed" "Item.listed") one_playbook eq_refl)
             (entry_of the_listed)).
    reflexivity.
  - apply (proj2 (onUpdate_then_lookup the_stray one_playbook eq_refl)). reflexivity.
Defined.

(** The create of a playbook that the registry does not list makes its
    summary the answer of a lookup, and a delete right after it gives back
    the elements the registry had. *)
Theorem onCreate_fresh (this : Item) (playbooks : registry) :
  type this = "playbook" →
  lookup_uuid (uuid this) playbooks = None →
  lookup_uuid (uuid this) (_onCreate this playbooks) = Some (entry_of this)
  ∧ elems (_onDelete this (_onCreate this playbooks)) = elems playbooks.
Proof.
  intros Htype Hnone. unfold lookup_uuid, _onDelete, _onCreate in *. rewrite Htype.
  change (String.eqb "playbook" "playbook") with true. cbn match.
  cbn [push filter_array elems].
  pose proof (proj1 (find_none_iff _ _) Hnone) as Hall. clear Hnone. rename Hall into Hnone.
  split.
  - induction (elems playbooks) as [|x l IH]; cbn [app List.find].
    + cbn. by rewrite String.eqb_refl.
    + rewrite (Hnone x) by (by left). apply IH. intros y Hy. apply Hnone. by right.
  - rewrite filter_app_rejected by (cbn; by rewrite String.eqb_refl).
    induction (elems playbooks) as [|x l IH]; [done |]. cbn [List.filter].
    rewrite (Hnone x) by (by left). cbn. f_equal. apply IH.
    intros y Hy. apply Hnone. by right.
Qed.

Lemma onCreate_fresh_witness :
  lookup_uuid "Item.stray" (_onCreate the_stray one_playbook) = Some (entry_of the_stray)
  ∧ elems (_onDelete the_stray (_onCreate the_stray one_playbook)) = elems one_playbook.
Proof.
  apply (onCreate_fresh the_stray one_playbook); reflexivity.
Defined.

(** The create hook appends without looking: for a playbook that the
    registry already lists, the registry then lists the identifier twice, a
    lookup keeps answering the older entry, and one delete removes both. *)
Theorem onCreate_listed (this : Item) (playbooks : registry) (old : PlaybookEntry) :
  type this = "playbook" →
  lookup_uuid (uuid this) playbooks = Some old →
  elems (_onCreate this playbooks) = (elems playbooks ++ [entry_of this])%list
  ∧ lookup_uuid (uuid this) (_onCreate this playbooks) = Some old
  ∧ lookup_uuid (uuid this) (_onDelete this (_onCreate this playbooks)) = None.
Proof.
  intros Htype Hold. unfold lookup_uuid, _onDelete, _onCreate in *. rewrite Htype.
  change (String.eqb "playbook" "playbook") with true. cbn match.
  cbn [push filter_array elems]. split; [done |]. split.
  - induction (elems playbooks) as [|x l IH]; [done |].
    cbn [app List.find] in *. destruct (String.eqb (pb_uuid x) (uuid this)); [done |].
    by apply IH.
  - apply find_none_iff. intros x Hx.
    apply list_elem_of_In, List.filter_In in Hx as [_ Hx].
    by apply negb_true_iff in Hx.
Qed.

Lemma onCreate_listed_witness :
  elems (_onCreate (playbook_item "The Listed, again" "Item.listed") one_playbook)
  = [entry_of the_listed; entry_of (playbook_item "The Listed, again" "Item.listed")]
  ∧ lookup_uuid "Item.listed"
      (_onCreate (playbook_item "The Listed, again" "Item.listed") one_playbook)
    = Some (entry_of the_listed)
  ∧ lookup_uuid "Item.listed"
      (_onDelete (playbook_item "The Listed, again" "Item.listed")
         (_onCreate (playbook_item "The Listed, again" "Item.listed") one_playbook))
    = None.
Proof.
  apply (onCreate_listed (playbook_item "The Listed, again" "Item.listed") one_playbook
           (entry_of the_listed)); reflexivity.
Defined.

(** * MappingField: how the methods compose *)

Lemma getInitialValue_seeded_keys (this : MappingField.t) (data : value) :
  super_getInitialValue this data = VObject ∅ →
  "__proto__" ∉ seed_keys this →
  ∃ seeded : gmap string value,
    getInitialValue this data = Ok (VObject seeded)
    ∧ dom seeded = seed_keys this
    ∧ ∀ key v, seeded !! key = Some v → v = _getInitialValueForKey this key VUndefined.
Proof.
  intros Hsuper Hproto.
  destruct (getInitialValue_seeds this data Hsuper) as (keys & -> & Hkeys).
  rewrite <- Hkeys, elem_of_list_to_set in Hproto. rewrite seed_object by done.
  eexists. split; [reflexivity |]. split.
  - by rewrite foldl_insert_dom, dom_empty_L, (left_id_L ∅ (∪)).
  - intros key v Hv. rewrite foldl_insert_lookup in Hv.
    case_bool_decide; [by simplify_eq | by rewrite lookup_empty in Hv].
Qed.

(** Initializing the initial value: with an empty inherited initial value
    and seed keys other than [__proto__], the initial value of the field
    goes through [initialize] and comes out with exactly the seed keys,
    whether [initialKeysOnly] is set or not. *)
Theorem initialize_initial_value (this : MappingField.t) (data parent options : value) :
  super_getInitialValue this data = VObject ∅ →
  "__proto__" ∉ seed_keys this →
  ∃ (initial : value) (obj : gmap string value),
    getInitialValue this data = Ok initial
    ∧ initialize this initial parent options = VObject obj
    ∧ dom obj = seed_keys this.
Proof.
  intros Hsuper Hproto.
  destruct (getInitialValue_seeded_keys this data Hsuper Hproto)
    as (seeded & Hrun & Hdom & _).
  destruct (initialize_object this seeded parent options) as (obj & Hinit & Hkeys & _).
  { rewrite Hdom. by destruct (initialKeysOnly this). }
  exists (VObject seeded), obj. split; [done |]. split; [done |].
  rewrite Hkeys, Hdom. by destruct (initialKeysOnly this).
Qed.

Lemma initialize_initial_value_witness :
  ∃ (initial : value) (obj : gmap string value),
    getInitialValue (seeded_field ["hit"; "miss"] true) VUndefined = Ok initial
    ∧ initialize (seeded_field ["hit"; "miss"] true) initial VUndefined VUndefined
      = VObject obj
    ∧ dom obj = seed_keys (seeded_field ["hit"; "miss"] true).
Proof.
  apply (initialize_initial_value (seeded_field ["hit"; "miss"] true)
           VUndefined VUndefined VUndefined).
  - reflexivity.
  - cbn [seeded_field seed_keys initialKeys].
    rewrite elem_of_list_to_set. intros Hin.
    repeat (apply elem_of_cons in Hin as [Hin | Hin]; [discriminate Hin |]).
    by apply elem_of_nil in Hin.
Defined.

(** With the seed key [__proto__], the initial value has no such key: the
    assignment finds the setter, and the per-key initial value, a text, is
    no prototype. *)
Example getInitialValue_proto_seed :
  getInitialValue (seeded_field ["__proto__"; "hit"] false) VUndefined
  = Ok (VObject {["hit" := VString ""]}).
Proof. vm_compute. reflexivity. Qed.






(** Cleaning keeps the keys: on an object, [_cleanType] succeeds with an
    object of the same key set whose entries are the contained field's
    [clean] of the entries it had. *)
Theorem cleanType_keeps_keys (this : MappingField.t) (o : gmap string value) (options : value) :
  ∃ cleaned : gmap string value,
    _cleanType this (VObject o) options = Ok (VObject cleaned)
    ∧ dom cleaned = dom o
    ∧ ∀ key, cleaned !! key = (fun v => df_clean (model this) v options) <$> o !! key.
Proof.
  eexists. split; [apply cleanType_object |]. split.
  - apply dom_fmap_L.
  - intros key. apply lookup_fmap.
Qed.

(** What [getInitialValue] does with an inherited initial value that is not
    the empty object: one that is not empty is returned as it is; one that
    is [undefined] or [null] is returned as it is when there is no seed key
    to write, and makes the method throw a [TypeError] at the first seed key
    otherwise. *)
Theorem getInitialValue_not_seeded (this : MappingField.t) (data : value) :
  (isEmpty (super_getInitialValue this data) = false →
   getInitialValue this data = Ok (super_getInitialValue this data))
  ∧ (nullish (super_getInitialValue this data) = true →
     (seed_keys this = ∅ →
      getInitialValue this data = Ok (super_getInitialValue this data))
     ∧ (seed_keys this ≠ ∅ →
        ∃ message, getInitialValue this data = Throw (TypeError message))).
Proof.
  unfold getInitialValue, seed_keys. split.
  - intros ->. by destruct (initialKeys this).
  - intros Hnull.
    assert (Hempty : isEmpty (super_getInitialValue this data) = true)
      by (by destruct (super_getInitialValue this data)).
    rewrite Hempty. cbn [negb].
    assert (Hseed : ∀ keys : list string,
               (list_to_set keys = (∅ : gset string) →
                seed this (super_getInitialValue this data) keys
                = Ok (super_getInitialValue this data))
               ∧ (list_to_set keys ≠ (∅ : gset string) →
                  ∃ message, seed this (super_getInitialValue this data) keys
                             = Throw (TypeError message))).
    { intros [| key keys]; split.
      - done.
      - intros Hne. by destruct Hne.
      - intros Hnil. exfalso. cbn in Hnil. set_solver.
      - intros _. cbn [seed].
        destruct (super_getInitialValue this data); try discriminate Hnull;
          cbn; by eexists. }
    destruct (initialKeys this) as [[keys | o] |].
    + apply Hseed.
    + rewrite <- Object_keys_object. apply Hseed.
    + split; [done | intros Hne; by destruct Hne].
Qed.

(** The [moveResults] field of a move is built, and seeds nothing: its
    initial value is the inherited one, whatever that is, and initializing a
    mapping that has no key [__proto__] keeps exactly the keys of the
    mapping. *)
Theorem moveResults_seeds_nothing (schema : DataField) (super_getInitialValue : value → value) :
  ∃ field : MappingField.t,
    MoveData.moveResults schema super_getInitialValue = Ok field
    ∧ model field = schema
    ∧ (∀ data, getInitialValue field data = Ok (super_getInitialValue data))
    ∧ ∀ (o : gmap string value) (parent options : value),
        o !! "__proto__" = None →
        ∃ obj : gmap string value,
          initialize field (VObject o) parent options = VObject obj
          ∧ dom obj = dom o
          ∧ ∀ key v, o !! key = Some v →
              obj !! key
              = Some (df_initialize schema
                        (coalesce v (df_getInitialValue schema VUndefined)) parent options).
Proof.
  exists {| model := schema;
            initialKeys := Some (KeysObject ∅);
            initialValue := None;
            initialKeysOnly := false;
            MappingField.super_getInitialValue := super_getInitialValue |}.
  split; [reflexivity |]. split; [reflexivity |]. split.
  - intros data. unfold getInitialValue. cbn [initialKeys MappingField.super_getInitialValue].
    destruct (negb (isEmpty (super_getInitialValue data))); [done |].
    unfold Object_keys. cbn [Object_entries]. by rewrite map_to_list_empty.
  - intros o parent options Hproto.
    match goal with
    | |- context [initialize ?f _ _ _] =>
        destruct (initialize_object f o parent options) as (obj & Hrun & Hdom & Hlookup)
    end.
    { cbn [initialKeysOnly]. by apply not_elem_of_dom. }
    exists obj. split; [exact Hrun |]. split; [exact Hdom |].
    intros key v Hv.
    assert (Hkey : key ∈ dom obj) by (rewrite Hdom; by apply elem_of_dom).
    apply elem_of_dom in Hkey as [v' Hv']. rewrite Hv'. f_equal.
    rewrite (Hlookup key v' Hv'), (get_prop_own o key v Hv). reflexivity.
Qed.

(** * ItemPbta.roll *)


(** A stat named after a member of [Object.prototype] is read although the
    actor has no such stat: the roll goes through, on a formula that names
    the stat. *)
Example roll_inherited_stat :
  Roll.roll {| Roll.descriptionOnly := false; Roll.type := "move";
               Roll.rollType := Some "constructor"; Roll.rollFormula := None;
               Roll.rollMod := VUndefined; Roll.actor_stats := Some ∅;
               Roll.statToggle_modifier := 1 |}
  = Ok (Roll.Rolls (Some "@formula+ @stats.constructor.value") "constructor" "constructor").
Proof. vm_compute. reflexivity. Qed.

Lemma string_app_assoc (s1 s2 s3 : string) :
  (s1 +:+ s2) +:+ s3 = s1 +:+ (s2 +:+ s3).
Proof.
  induction s1 as [|c s1 IH]; [reflexivity |].
  change ((String c s1 +:+ s2) +:+ s3) with (String c ((s1 +:+ s2) +:+ s3)).
  change (String c s1 +:+ (s2 +:+ s3)) with (String c (s1 +:+ (s2 +:+ s3))).
  by rewrite IH.
Qed.

(** A roll of an item that is not an npc move and whose roll type is not
    "formula" is built on [@formula]: the formula starts with it.  With
    "ask" or "prompt" no stat
    is named; with any other roll type the stat is the roll type and its
    value comes next in the formula. *)
Theorem roll_formula_base (i : Roll.input) (formula : option string) (stat shown : string) :
  Roll.type i ≠ "npcMove" →
  Roll.rollType i ≠ Some "formula" →
  Roll.roll i = Ok (Roll.Rolls formula stat shown) →
  Roll.rollType i = Some shown
  ∧ (((shown ∈ ["ask"; "prompt"]) ∧ stat = ""
      ∧ (formula = Some "@formula" ∨ formula = Some "@formula + @rollMod"))
     ∨ ((shown ∉ ["ask"; "prompt"]) ∧ stat = shown
        ∧ ∃ rest, formula = Some ("@formula+ @stats." +:+ shown +:+ ".value" +:+ rest))).
Proof.
  intros Hnpc Hformula. unfold Roll.roll, Roll.formula_and_stat.
  destruct (Roll.descriptionOnly i); cbn [orb]; [done |].
  destruct (String.eqb (Roll.type i) "equipment"); cbn [orb]; [done |].
  destruct (String.eqb_spec (Roll.type i) "npcMove") as [? | _]; [done |].
  cbn [negb andb orb].
  destruct (Roll.rollType i) as [s |]; cbn; [| done].
  destruct (negb (String.eqb s "")); cbn; [| done].
  destruct (String.eqb_spec s "formula") as [-> | Hs]; [done |].
  case_bool_decide as Hin; cbn.
  - intros [= <- <- <-]. split; [done |]. left.
    split.
    + apply elem_of_cons in Hin as [-> | Hin]; [by left |].
      apply elem_of_cons in Hin as [-> | Hin]; [right; by left |].
      apply list_elem_of_singleton in Hin. contradiction.
    + split; [done |]. destruct (truthy (Roll.rollMod i)); [by right | by left].
  - destruct (Roll.actor_stats i) as [stats |]; [| done].
    assert (Hout : s ∉ ["ask"; "prompt"]).
    { intros Hs'. apply Hin.
      apply elem_of_cons in Hs' as [-> | Hs']; [by left |].
      apply list_elem_of_singleton in Hs' as ->. right. by left. }
    unfold Roll.concat.
    destruct (stats !! s) as [toggle |].
    + destruct toggle, (truthy (Roll.rollMod i)); cbn; intros [= <- <- <-];
        (split; [done |]); right; (split; [done |]); (split; [done |]).
      * eexists. f_equal.
        change ("@formula" +:+ "+ @stats." +:+ s +:+ ".value")
          with ("@formula+ @stats." +:+ s +:+ ".value").
        rewrite !string_app_assoc. reflexivity.
      * eexists. f_equal.
        change ("@formula" +:+ "+ @stats." +:+ s +:+ ".value")
          with ("@formula+ @stats." +:+ s +:+ ".value").
        rewrite !string_app_assoc. reflexivity.
      * exists " + @rollMod". f_equal.
        change ("@formula" +:+ "+ @stats." +:+ s +:+ ".value")
          with ("@formula+ @stats." +:+ s +:+ ".value").
        rewrite !string_app_assoc. reflexivity.
      * exists "". reflexivity.
    + case_bool_decide; [| done].
      destruct (truthy (Roll.rollMod i)); cbn; intros [= <- <- <-];
        (split; [done |]); right; (split; [done |]); (split; [done |]).
      * exists " + @rollMod". f_equal.
        change ("@formula" +:+ "+ @stats." +:+ s +:+ ".value")
          with ("@formula+ @stats." +:+ s +:+ ".value").
        rewrite !string_app_assoc. reflexivity.
      * exists "". reflexivity.
Qed.

Lemma roll_formula_base_witness :
  Roll.rollType stat_roll = Some "cool"
  ∧ ((("cool" ∈ ["ask"; "prompt"]) ∧ "cool" = ""
      ∧ (Some "@formula+ @stats.cool.value+ 1 + @rollMod" = Some "@formula"
         ∨ Some "@formula+ @stats.cool.value+ 1 + @rollMod" = Some "@formula + @rollMod"))
     ∨ (("cool" ∉ ["ask"; "prompt"]) ∧ "cool" = "cool"
        ∧ ∃ rest, Some "@formula+ @stats.cool.value+ 1 + @rollMod"
                  = Some ("@formula+ @stats." +:+ "cool" +:+ ".value" +:+ rest))).
Proof.
  apply (roll_formula_base stat_roll
           (Some "@formula+ @stats.cool.value+ 1 + @rollMod") "cool" "cool").
  - discriminate.
  - discriminate.
  - vm_compute. reflexivity.
Defined.

(** * Toggling the content of a chat card *)


(** * The shift action, to the update of the message *)

(** The content that the action has built when it turns to the result band
    is the content of [ItemPbta._onChatCardAction]. *)
Lemma shift_patch (host : Host) (action content : string) :
  ItemPbta._onChatCardAction host action content
  = match ShiftAction.shift host action content with
    | ShiftAction.Shifted content _ => Patched content
    | ShiftAction.ShiftNoFormula => NoFormula
    | ShiftAction.ShiftCaught => Caught
    end.
Proof.
  unfold ItemPbta._onChatCardAction, ShiftAction.shift.
  destruct (match_block dice_formula_open div_close content) as [[[? ?] ?] |]; [| done].
  destruct (Roll_safeEval host _); [| done].
  destruct (match_block dice_total_open h4_close _) as [[[? ?] ?] |]; [| done].
  by destruct (Roll_safeEval host _).
Qed.

Lemma newResult_of_some (results : ShiftAction.RollResults) (resultType : option string)
    (total : Z) (k : string) :
  ShiftAction.newResult_of results resultType total = Some k →
  Some k ≠ resultType
  ∧ ∃ band, ShiftAction.band_of results k = Some band ∧ ShiftAction.holds band total = true.
Proof.
  unfold ShiftAction.newResult_of. intros Hfind.
  apply List.find_some in Hfind as [Hin Hholds].
  apply List.filter_In in Hin as [_ Hother].
  split.
  - apply negb_true_iff in Hother. by apply bool_decide_eq_false in Hother.
  - destruct (ShiftAction.band_of results k) as [band |]; [by exists band | done].
Qed.

Lemma band_of_key (results : ShiftAction.RollResults) (k : string) (band : ShiftAction.Band) :
  ShiftAction.band_of results k = Some band → In k results.*1.
Proof.
  unfold ShiftAction.band_of. intros Hband.
  destruct (List.find _ results) as [[k' b] |] eqn:Hfind; [| done].
  apply List.find_some in Hfind as [Hin Hk]. cbn in Hk. apply String.eqb_eq in Hk as ->.
  apply list_elem_of_In, list_elem_of_fmap. exists (k, b). split; [done |].
  by apply list_elem_of_In.
Qed.

Lemma newResult_of_none (results : ShiftAction.RollResults) (resultType : option string)
    (total : Z) :
  ShiftAction.newResult_of results resultType total = None
  ↔ ∀ k band, ShiftAction.band_of results k = Some band → Some k ≠ resultType →
      ShiftAction.holds band total = false.
Proof.
  unfold ShiftAction.newResult_of. split.
  - intros Hnone k band Hband Hother.
    pose proof (List.find_none _ _ Hnone k) as Hk. cbn in Hk. rewrite Hband in Hk.
    apply Hk. apply List.filter_In. split; [by eapply band_of_key |].
    apply negb_true_iff. by apply bool_decide_eq_false.
  - intros Hall. apply find_none_iff. intros k Hk.
    apply list_elem_of_In, List.filter_In in Hk as [_ Hother].
    apply negb_true_iff, bool_decide_eq_false in Hother.
    destruct (ShiftAction.band_of results k) as [band |] eqn:Hband; [| done].
    by apply (Hall k band).
Qed.

(** When the action updates the message, either the total has not left the
    band of the result on the side of the shift, and the result type and the
    content are those of the shift alone; or it has, and the new result type
    is the key of a band other than the old one that holds the new total, or
    is unset when no other band holds it. *)
Theorem shift_result_holds_total (host : Host) (results : ShiftAction.RollResults)
    (item : ShiftAction.SourceItem) (action content : string)
    (options : ShiftAction.RollOptions) (content' : string) (resultType' : option string) :
  ShiftAction._onChatCardAction host (Some results) item action content (Some options)
  = ShiftAction.Updated content' resultType' →
  ∃ (shifted : string) (total : Z),
    ShiftAction.shift host action content = ShiftAction.Shifted shifted total
    ∧ ((ShiftAction.leaves (Some results) (ShiftAction.resultType options) action total = false
        ∧ resultType' = ShiftAction.resultType options
        ∧ content' = shifted)
       ∨ (ShiftAction.leaves (Some results) (ShiftAction.resultType options) action total = true
          ∧ match resultType' with
            | Some k =>
                Some k ≠ ShiftAction.resultType options
                ∧ ∃ band, ShiftAction.band_of results k = Some band
                          ∧ ShiftAction.holds band total = true
            | None =>
                ∀ k band, ShiftAction.band_of results k = Some band →
                  Some k ≠ ShiftAction.resultType options →
                  ShiftAction.holds band total = false
            end)).
Proof.
  unfold ShiftAction._onChatCardAction.
  destruct (ShiftAction.shift host action content) as [shifted total | |]; [| done | done].
  intros Hrun. exists shifted, total. split; [done |].
  destruct (ShiftAction.leaves _ _ _ _) eqn:Hleaves.
  - right. split; [done |].
    assert (Hnew : resultType'
                   = ShiftAction.newResult_of results (ShiftAction.resultType options) total).
    { destruct (bool_decide _); [| by injection Hrun as _ <-].
      destruct item as [[moveResults |] |]; [| by injection Hrun as _ <- ..].
      destruct (ShiftAction.moveResult_of moveResults _); [by injection Hrun as _ <- | done]. }
    rewrite Hnew.
    destruct (ShiftAction.newResult_of _ _ _) as [k |] eqn:Hk.
    + by apply (newResult_of_some results).
    + by apply newResult_of_none.
  - left. by injection Hrun as <- <-.
Qed.

Lemma shift_result_holds_total_witness :
  ∃ (shifted : string) (total : Z),
    ShiftAction.shift sample_host "shiftUp" (dice_card "2d6 + 1" "9")
    = ShiftAction.Shifted shifted total
    ∧ ∃ band, ShiftAction.band_of bounded_bands "success" = Some band
              ∧ ShiftAction.holds band total = true.
Proof.
  destruct (shift_result_holds_total sample_host bounded_bands (Some (Some move_results))
              "shiftUp" (dice_card "2d6 + 1" "9") (rolled "partial")
              (dice_card "2d6 + 2" "10") (Some "success"))
    as (shifted & total & Hshift & [[Hstay _] | [_ [_ Hband]]]).
  - vm_compute. reflexivity.
  - exfalso. revert Hstay. vm_compute in Hshift. injection Hshift as <- <-.
    vm_compute. discriminate.
  - exists shifted, total. split; [exact Hshift | exact Hband].
Defined.

(** A shift that takes the total out of every band is lost on a move: when
    the total has left the band of the result and no other band holds it,
    the new result type is unset; the item behind a move then has no result
    under that name, the action fails on it, and the message is not
    updated: not even with the shifted total.  On a roll of another type, or
    one whose item is gone, the message is updated and its result type
    unset. *)
Theorem shift_outside_bands (host : Host) (results : ShiftAction.RollResults)
    (item : ShiftAction.SourceItem) (action content shifted : string) (total : Z)
    (options : ShiftAction.RollOptions) :
  ShiftAction.shift host action content = ShiftAction.Shifted shifted total →
  ShiftAction.leaves (Some results) (ShiftAction.resultType options) action total = true →
  (∀ k band, ShiftAction.band_of results k = Some band →
     Some k ≠ ShiftAction.resultType options → ShiftAction.holds band total = false) →
  ((ShiftAction.rollType options = Some "move" ∨ ShiftAction.rollType options = Some "npcMove") →
   ∀ moveResults, item = Some (Some moveResults) → moveResults !! "undefined" = None →
   ShiftAction._onChatCardAction host (Some results) item action content (Some options)
   = ShiftAction.Caught)
  ∧ (¬ (ShiftAction.rollType options = Some "move"
        ∨ ShiftAction.rollType options = Some "npcMove")
     ∨ item = None ∨ item = Some None →
     ShiftAction._onChatCardAction host (Some results) item action content (Some options)
     = ShiftAction.Updated shifted None).
Proof.
  intros Hshift Hleaves Hnone. apply newResult_of_none in Hnone.
  unfold ShiftAction._onChatCardAction. rewrite Hshift, Hleaves, Hnone. split.
  - intros Hmove moveResults -> Hundefined.
    rewrite bool_decide_eq_true_2 by done. cbn.
    unfold ShiftAction.moveResult_of. by rewrite Hundefined.
  - intros [Hother | [-> | ->]].
    + by rewrite bool_decide_eq_false_2.
    + by destruct (bool_decide _).
    + by destruct (bool_decide _).
Qed.

Lemma shift_outside_bands_witness :
  ShiftAction._onChatCardAction sample_host (Some bounded_bands) (Some (Some move_results))
    "shiftUp" (dice_card "2d6 + 1" "12") (Some (rolled "success"))
  = ShiftAction.Caught.
Proof.
  apply (proj1 (shift_outside_bands sample_host bounded_bands (Some (Some move_results))
                  "shiftUp" (dice_card "2d6 + 1" "12") (dice_card "2d6 + 2" "13") 13
                  (rolled "success")
                  ltac:(vm_compute; reflexivity) ltac:(vm_compute; reflexivity)
                  (proj1 (newResult_of_none bounded_bands (Some "success") 13)
                     ltac:(vm_compute; reflexivity)))
           (or_introl eq_refl) move_results eq_refl).
  vm_compute. reflexivity.
Defined.

(** A shift up from 9 to 10 takes a partial success to a success: the
    formula, the total, the result on the row and on the roll, the label and
    the details, which ran over two lines, are all rewritten. *)
Example shift_rewrites_card :
  ShiftAction._onChatCardAction sample_host (Some bounded_bands) (Some (Some move_results))
    "shiftUp"
    (result_card "partial" "Partial" ("You do it," +:+ newline +:+ "at a cost") "2d6 + 1" "9")
    (Some (rolled "partial"))
  = ShiftAction.Updated (result_card "success" "Hit" "" "2d6 + 2" "10") (Some "success").
Proof. vm_compute. reflexivity. Qed.

(** * The creation hook of an item *)

Lemma blank_result_truthy (key : string) (label : value) :
  truthy (PreCreate.blank_result key label) = true.
Proof. reflexivity. Qed.

(** An assignment under a name that reads falsy defines or updates an own
    property: the name is not one that finds the setter of [__proto__],
    since that name reads the prototype, which is truthy. *)
Lemma put_falsy (m : gmap string value) (k : string) (x : value) :
  truthy (get_prop (VObject m) k) = false → put (VObject m) k x = VObject (<[k := x]> m).
Proof.
  intros Hfalsy. destruct (m !! k) as [y |] eqn:Hk; [apply put_own; by eexists |].
  apply put_named. intros ->.
  destruct (get_prop_inherited m "__proto__" Hk proto_is_inherited) as [b Hb].
  by rewrite Hb in Hfalsy.
Qed.

Lemma get_prop_insert_ne (m : gmap string value) (k k' : string) (x : value) :
  k ≠ k' → get_prop (VObject (<[k := x]> m)) k' = get_prop (VObject m) k'.
Proof.
  intros Hne. unfold get_prop. cbn [find_prop prototype_of]. by rewrite lookup_insert_ne.
Qed.

(** The loop over a list of configured results, none of them [null] or
    [undefined]: each key is looked at once with effect, the first time. *)
Lemma seed_results_object (ranges : list (string * value)) :
  ∀ m : gmap string value,
    (∀ k r, (k, r) ∈ ranges → nullish r = false) →
    ∃ m' : gmap string value,
      PreCreate.seed_results (VObject m) ranges = Ok (VObject m')
      ∧ ∀ k, m' !! k
             = match (list_to_map ranges : gmap string value) !! k with
               | Some r =>
                   if truthy (get_prop (VObject m) k) then m !! k
                   else Some (PreCreate.blank_result k (get_prop r "label"))
               | None => m !! k
               end.
Proof.
  induction ranges as [| [key range] ranges IH]; intros m Hranges.
  - exists m. split; [done |]. intros k. simpl. by rewrite lookup_empty.
  - assert (Hrange : nullish range = false) by (apply (Hranges key), list_elem_of_here).
    assert (Hrest : ∀ k r, (k, r) ∈ ranges → nullish r = false).
    { intros k r Hin. apply (Hranges k). by apply list_elem_of_further. }
    cbn [PreCreate.seed_results list_to_map foldr].
    destruct (truthy (get_prop (VObject m) key)) eqn:Hold; cbn [negb].
    + destruct (IH m Hrest) as (m' & Hrun & Hlookup). exists m'. split; [done |].
      intros k. rewrite Hlookup. destruct (decide (k = key)) as [-> | Hne].
      * rewrite lookup_insert_eq, Hold. by destruct (list_to_map ranges !! key).
      * by rewrite lookup_insert_ne.
    + unfold PreCreate.read. rewrite Hrange. cbn [mbind result_bind set_prop].
      rewrite put_falsy by done.
      destruct (IH (<[key := PreCreate.blank_result key (get_prop range "label")]> m) Hrest)
        as (m' & Hrun & Hlookup).
      exists m'. split; [done |].
      intros k. rewrite Hlookup. destruct (decide (k = key)) as [-> | Hne].
      * rewrite !lookup_insert_eq, Hold.
        rewrite (get_prop_own _ key _ (lookup_insert_eq _ _ _)). cbn [truthy PreCreate.blank_result].
        by destruct (list_to_map ranges !! key).
      * rewrite !lookup_insert_ne by done. by rewrite get_prop_insert_ne.
Qed.

(** On a move or an npc move whose system data is an object, with move
    results that are an object [m], or missing or falsy ([m] is then
    empty), and a configuration whose results are objects, the first update
    is the one of the system data, merged from the template data in which
    the move results are [seeded]: a configured key that reads falsy on the
    move results has the blank result with the label of the configuration;
    every other key has what it had, whether configured or not.  A
    configured key that the move results do not have but that names a
    member of [Object.prototype] reads truthy, and is not seeded. *)
Theorem preCreate_seeds_results (host : PreCreate.Host) (this : PreCreate.Document)
    (sys configured m : gmap string value) :
  PreCreate.type this = "move" ∨ PreCreate.type this = "npcMove" →
  PreCreate.duplicate_system this = VObject sys →
  PreCreate.rollResults host = VObject configured →
  (∀ k r, configured !! k = Some r → nullish r = false) →
  get_prop (VObject sys) "moveResults" = VObject m
  ∨ (truthy (get_prop (VObject sys) "moveResults") = false ∧ m = ∅) →
  ∃ seeded : gmap string value,
    PreCreate.moves host this
    = Ok [PreCreate.SetSystem
            (PreCreate.mergeObject host (VObject (<["moveResults" := VObject seeded]> sys))
               (PreCreate.toObject_system this))]
    ∧ (∀ k, seeded !! k
            = match configured !! k with
              | Some r =>
                  if truthy (get_prop (VObject m) k) then m !! k
                  else Some (PreCreate.blank_result k (get_prop r "label"))
              | None => m !! k
              end)
    ∧ (∀ k r, configured !! k = Some r → m !! k = None →
         seeded !! k
         = if bool_decide (k ∈ Object_prototype_names) then None
           else Some (PreCreate.blank_result k (get_prop r "label"))).
Proof.
  intros Htype Hsys Hconfigured Hranges Hresults.
  destruct (seed_results_object (map_to_list configured) m) as (seeded & Hrun & Hlookup).
  { intros k r Hin. apply (Hranges k). by apply elem_of_map_to_list. }
  rewrite list_to_map_to_list in Hlookup.
  exists seeded. split; [| split; [done |]].
  - unfold PreCreate.moves.
    replace (String.eqb (PreCreate.type this) "move"
             || String.eqb (PreCreate.type this) "npcMove")%bool with true
      by (by destruct Htype as [-> | ->]).
    unfold PreCreate.templateData_system, PreCreate.entries.
    rewrite Hsys, Hconfigured. cbn [truthy negb nullish Object_entries].
    destruct Hresults as [Hobject | [Hfalsy ->]].
    + rewrite Hobject. cbn [truthy negb mbind result_bind]. rewrite Hobject, Hrun.
      cbn [mbind result_bind set_prop]. by rewrite put_named.
    + rewrite Hfalsy. cbn [negb set_prop mbind result_bind]. rewrite put_named by done.
      cbn [mbind result_bind].
      rewrite (get_prop_own _ "moveResults" _ (lookup_insert_eq _ _ _)).
      unfold id. rewrite Hrun. cbn [mbind result_bind set_prop].
      rewrite put_named by done. by rewrite insert_insert_eq.
  - intros k r Hk Hnone. rewrite Hlookup, Hk.
    case_bool_decide as Hname.
    + destruct (get_prop_inherited m k Hnone Hname) as [b ->]. by rewrite Hnone.
    + by rewrite (get_prop_missing m k Hnone Hname).
Qed.

Lemma preCreate_seeds_results_witness :
  ∃ seeded : gmap string value,
    PreCreate.moves create_host new_move
    = Ok [PreCreate.SetSystem (VObject (<["moveResults" := VObject seeded]>
                                          {[ "moveResults" := VObject own_success ]}))]
    ∧ seeded !! "success" = own_success !! "success"
    ∧ seeded !! "failure" = Some (PreCreate.blank_result "failure" (VString "Miss")).
Proof.
  destruct (preCreate_seeds_results create_host new_move
              {[ "moveResults" := VObject own_success ]} configured_results own_success)
    as (seeded & Hrun & Hlookup & _).
  - by left.
  - reflexivity.
  - reflexivity.
  - intros k r Hk. unfold configured_results in Hk.
    apply lookup_insert_Some in Hk as [[_ <-] | [_ Hk]]; [done |].
    apply lookup_singleton_Some in Hk as [_ <-]. done.
  - left. vm_compute. reflexivity.
  - exists seeded. split; [exact Hrun |]. split.
    + rewrite (Hlookup "success"). vm_compute. reflexivity.
    + rewrite (Hlookup "failure"). vm_compute. reflexivity.
Defined.

(** A configured result named [constructor] is not seeded on a move that
    has no such result: the name reads the member of [Object.prototype]. *)
Example preCreate_inherited_result :
  PreCreate.seed_results (VObject ∅)
    [("constructor", VObject {[ "label" := VString "Built" ]});
     ("failure", VObject {[ "label" := VString "Miss" ]})]
  = Ok (VObject {[ "failure" := PreCreate.blank_result "failure" (VString "Miss") ]}).
Proof. vm_compute. reflexivity. Qed.

(** The hook throws on moves only: on an item of another type it returns,
    with at most two updates; on a move or an npc move it throws when the
    configuration has no results to loop over. *)
Theorem preCreate_throws_on_moves_only (host : PreCreate.Host) (this : PreCreate.Document) :
  (PreCreate.type this ≠ "move" ∧ PreCreate.type this ≠ "npcMove" →
   ∃ updates, PreCreate._preCreate host this = Ok updates ∧ (length updates ≤ 2)%nat
              ∧ ∀ system, PreCreate.SetSystem system ∉ updates)
  ∧ ((PreCreate.type this = "move" ∨ PreCreate.type this = "npcMove") →
     nullish (PreCreate.rollResults host) = true →
     ∃ e, PreCreate._preCreate host this = Throw e).
Proof.
  split.
  - intros [Hmove HnpcMove].
    unfold PreCreate._preCreate, PreCreate.moves.
    apply String.eqb_neq in Hmove, HnpcMove. rewrite Hmove, HnpcMove.
    cbn [orb mbind result_bind app PreCreate.applied foldl].
    eexists. split; [done |].
    unfold PreCreate.actorTypes, PreCreate.slugs. split.
    + destruct (PreCreate.actor this); [destruct (PreCreate.system_actorType this) |];
        repeat (destruct (PreCreate.imported _) || destruct (_ && _)%bool); cbn; lia.
    + intros system Hin. apply elem_of_app in Hin as [Hin | Hin].
      * destruct (PreCreate.actor this); [destruct (PreCreate.system_actorType this) |];
          (apply elem_of_nil in Hin
           || (apply list_elem_of_singleton in Hin; discriminate Hin)); done.
      * destruct (PreCreate.imported _); [by apply elem_of_nil in Hin |].
        destruct (_ && _)%bool; [| by apply elem_of_nil in Hin].
        apply list_elem_of_singleton in Hin. discriminate Hin.
  - intros Htype Hnull.
    unfold PreCreate._preCreate, PreCreate.moves.
    replace (String.eqb (PreCreate.type this) "move"
             || String.eqb (PreCreate.type this) "npcMove")%bool with true
      by (by destruct Htype as [-> | ->]).
    unfold PreCreate.templateData_system, PreCreate.entries. rewrite Hnull.
    destruct (if negb (truthy (get_prop _ "moveResults")) then _ else _) as [system | e];
      cbn [mbind result_bind]; by eexists.
Qed.

(** A slug is set last, at most once, and only on a playbook that is not
    imported from a compendium and whose slug, as the earlier updates have
    left it, is falsy: the hook never replaces a slug. *)
Theorem preCreate_slug (host : PreCreate.Host) (this : PreCreate.Document)
    (updates : list PreCreate.update) :
  PreCreate._preCreate host this = Ok updates →
  ∃ earlier : list PreCreate.update,
    (∀ slug, PreCreate.SetSlug slug ∉ earlier)
    ∧ let now := PreCreate.applied host this earlier in
      if (negb (PreCreate.imported now) && String.eqb (PreCreate.type now) "playbook"
          && negb (truthy (PreCreate.system_slug now)))%bool
      then updates = (earlier ++ [PreCreate.SetSlug (PreCreate.slugify host (PreCreate.name now))])%list
      else updates = earlier.
Proof.
  unfold PreCreate._preCreate. intros Hrun.
  destruct (PreCreate.moves host this) as [first | e] eqn:Hmoves; [| done].
  cbn [mbind result_bind] in Hrun. injection Hrun as <-.
  exists (first ++ PreCreate.actorTypes (PreCreate.applied host this first))%list. split.
  - intros slug Hin. apply elem_of_app in Hin as [Hin | Hin].
    + unfold PreCreate.moves in Hmoves.
      destruct (_ || _)%bool.
      * destruct (PreCreate.templateData_system host this); [| done].
        cbn [mbind result_bind] in Hmoves. injection Hmoves as <-.
        apply list_elem_of_singleton in Hin. discriminate Hin.
      * injection Hmoves as <-. by apply elem_of_nil in Hin.
    + unfold PreCreate.actorTypes in Hin.
      destruct (PreCreate.actor _); [destruct (PreCreate.system_actorType _) |];
        (apply elem_of_nil in Hin
         || (apply list_elem_of_singleton in Hin; discriminate Hin)); done.
  - cbn zeta. unfold PreCreate.slugs.
    destruct (PreCreate.imported _); cbn [negb andb].
    + by rewrite app_nil_r.
    + destruct (_ && _)%bool; [by rewrite app_assoc | by rewrite app_nil_r].
Qed.

Lemma preCreate_slug_witness :
  ∃ earlier : list PreCreate.update,
    (∀ slug, PreCreate.SetSlug slug ∉ earlier)
    ∧ let now := PreCreate.applied create_host new_playbook earlier in
      if (negb (PreCreate.imported now) && String.eqb (PreCreate.type now) "playbook"
          && negb (truthy (PreCreate.system_slug now)))%bool
      then [PreCreate.SetSlug "The Driver"]
           = (earlier ++ [PreCreate.SetSlug (PreCreate.slugify create_host (PreCreate.name now))])%list
      else [PreCreate.SetSlug "The Driver"] = earlier.
Proof.
  apply (preCreate_slug create_host new_playbook [PreCreate.SetSlug "The Driver"]).
  vm_compute. reflexivity.
Defined.

(** * The actor types offered to an item *)

(** An actor type is offered when it is configured and passes the filter of
    the item type, with the label of [label_of]. *)
Lemma getActorTypes_lookup (host : ActorTypes.Host) (type a : string) :
  ActorTypes.getActorTypes host type !! a
  = if ActorTypes.filters host type a
    then ActorTypes.label_of host a <$> ActorTypes.actorTypes host !! a
    else None.
Proof.
  unfold ActorTypes.getActorTypes.
  set (l := List.map _ _).
  assert (Hin : ∀ lbl, (a, lbl) ∈ l
                       ↔ ∃ config, ActorTypes.actorTypes host !! a = Some config
                                   ∧ ActorTypes.filters host type a = true
                                   ∧ lbl = ActorTypes.label_of host a config).
  { intros lbl. unfold l. rewrite list_elem_of_In, List.in_map_iff. split.
    - intros ([a' config] & Heq & Hav). cbn in Heq. injection Heq as -> <-.
      apply List.filter_In in Hav as [Hav Hfilter]. cbn in Hfilter.
      apply list_elem_of_In, elem_of_map_to_list in Hav. by exists config.
    - intros (config & Hconfig & Hfilter & ->). exists (a, config). split; [done |].
      apply List.filter_In. split; [| done].
      by apply list_elem_of_In, elem_of_map_to_list. }
  destruct (list_to_map l !! a) as [lbl |] eqn:Hlookup.
  - apply elem_of_list_to_map_2, Hin in Hlookup as (config & -> & -> & ->). done.
  - apply not_elem_of_list_to_map_2 in Hlookup.
    destruct (ActorTypes.filters host type a) eqn:Hfilter; [| done].
    destruct (ActorTypes.actorTypes host !! a) as [config |] eqn:Hconfig; [| done].
    exfalso. apply Hlookup. apply list_elem_of_fmap.
    exists (a, ActorTypes.label_of host a config). split; [done |].
    apply Hin. by exists config.
Qed.

(** A move and a playbook are offered the same actor types; an item of a
    type other than equipment, move, playbook and npc move is offered none;
    and no item is offered an actor type that is not configured, not even
    "character" or "npc". *)
Theorem getActorTypes_by_item_type (host : ActorTypes.Host) :
  ActorTypes.getActorTypes host "move" = ActorTypes.getActorTypes host "playbook"
  ∧ (∀ type, (type ∉ ["equipment"; "move"; "playbook"; "npcMove"]) →
       ActorTypes.getActorTypes host type = ∅)
  ∧ ∀ type a, ActorTypes.actorTypes host !! a = None →
      ActorTypes.getActorTypes host type !! a = None.
Proof.
  split; [| split].
  - apply map_eq. intros a. by rewrite !getActorTypes_lookup.
  - intros type Htype. apply map_eq. intros a.
    rewrite getActorTypes_lookup, lookup_empty.
    replace (ActorTypes.filters host type a) with false; [done |].
    unfold ActorTypes.filters.
    assert (Hother : ∀ s, s ∈ ["equipment"; "move"; "playbook"; "npcMove"] →
                          String.eqb type s = false).
    { intros s Hs. apply String.eqb_neq. by intros ->. }
    rewrite !Hother by (repeat (apply list_elem_of_here || apply list_elem_of_further)).
    done.
  - intros type a Hnone. rewrite getActorTypes_lookup, Hnone.
    by destruct (ActorTypes.filters host type a).
Qed.

(** An actor type offered both to a move and to an npc move is one whose
    name and base type cross: "character" based on "npc", or "npc" based on
    "character". *)
Theorem getActorTypes_move_and_npcMove (host : ActorTypes.Host) (a : string) :
  is_Some (ActorTypes.getActorTypes host "move" !! a) →
  is_Some (ActorTypes.getActorTypes host "npcMove" !! a) →
  ∃ config, ActorTypes.actorTypes host !! a = Some config
            ∧ ((a = "character" ∧ ActorTypes.baseType config = Some "npc")
               ∨ (a = "npc" ∧ ActorTypes.baseType config = Some "character")).
Proof.
  rewrite !getActorTypes_lookup. unfold ActorTypes.filters.
  change (String.eqb "move" "equipment") with false.
  change (String.eqb "npcMove" "equipment") with false.
  change (String.eqb "move" "move") with true.
  change (String.eqb "npcMove" "move") with false.
  change (String.eqb "npcMove" "playbook") with false.
  change (String.eqb "npcMove" "npcMove") with true.
  cbn [orb].
  destruct (ActorTypes.actorTypes host !! a) as [config |] eqn:Hconfig; cbn [mbind option_bind fmap option_fmap option_map].
  - intros Hmove HnpcMove. exists config. split; [done |].
    destruct (String.eqb_spec a "character") as [Hcharacter | Hcharacter];
      destruct (String.eqb_spec a "npc") as [Hnpc | Hnpc]; cbn [orb] in Hmove, HnpcMove.
    + congruence.
    + left. split; [done |]. case_bool_decide; [done | by destruct HnpcMove].
    + right. split; [done |]. case_bool_decide; [done | by destruct Hmove].
    + exfalso. repeat case_bool_decide.
      * congruence.
      * by destruct HnpcMove.
      * by destruct Hmove.
      * by destruct Hmove.
  - intros Hmove. exfalso. destruct (_ || _)%bool; by destruct Hmove.
Qed.

Lemma getActorTypes_move_and_npcMove_witness :
  ∃ config, ActorTypes.actorTypes crossed_host !! "character" = Some config
            ∧ (("character" = "character" ∧ ActorTypes.baseType config = Some "npc")
               ∨ ("character" = "npc" ∧ ActorTypes.baseType config = Some "character")).
Proof.
  apply (getActorTypes_move_and_npcMove crossed_host "character").
  - exists "character". vm_compute. reflexivity.
  - exists "character". vm_compute. reflexivity.
Defined.
